(** * L3MON client manager: session, command and telemetry core

    A shallow embedding of [includes/clientManager.js] and of the message
    keys of [includes/const.js], followed by the properties of the manager
    that the design document states.

    Conventions of the embedding.
    - A JavaScript object with primitive property values is a finite map
      from property names to [jsval]; an array is a list.
    - [new Date()] is an explicit argument [now] (a millisecond timestamp)
      and [Math.floor(Math.random() * 100000)] is an explicit argument
      [rnd]: the operation is a function of the state and of these draws.
    - The callback [cb(error, message)] of the command path is the second
      component of the result.
    - The document store is lowdb (a lodash chain over a document held in
      memory): [get(name).value()] is the stored array itself, [push],
      [remove] and [assign] change it in place, [find(src)] is the first
      element that has every property of [src].
    - A string is its sequence of code units, those below 256.
    - A TypeError that a call raises is part of its result: [Thrown] for
      [sendCommand], a boolean beside the manager for the replay and the
      set-up of the listeners. The manager is as the statements before the
      throw left it.
    - The manager is built on a store that an earlier run of the server
      may have filled; [newManager] is the one on an empty store. *)

From Stdlib Require Import ZArith List Lia Ascii.
From stdpp Require Import base strings gmap list pretty.

Local Open Scope string_scope.
Local Open Scope list_scope.
Local Open Scope Z_scope.

(** ** JavaScript values *)

(** Primitive values. [JInt z] is the number whose value is the integer
    [z]; [JNaN] is the not-a-number. The sum of two numbers and the text of
    a number, which are those of IEEE-754 doubles, are left to the runtime:
    see [numberText] and [sumText] below. *)
Inductive jsval : Type :=
  | JUndef
  | JNull
  | JBool (b : bool)
  | JInt (z : Z)
  | JNaN
  | JStr (s : string).

#[global] Instance jsval_eq_dec : EqDecision jsval.
Proof. solve_decision. Defined.

Abbreviation obj := (gmap string jsval).

(** [o[k]] *)
Definition jsget (o : obj) (k : string) : jsval := default JUndef (o !! k).

(** [k in o] *)
Definition jsin (k : string) (o : obj) : bool := bool_decide (is_Some (o !! k)).

(** [Number(v)] for the values that are not strings; [None] is NaN. *)
Definition jsNumber (v : jsval) : option Z :=
  match v with
  | JNull => Some 0
  | JBool true => Some 1
  | JBool false => Some 0
  | JInt z => Some z
  | _ => None
  end.

(** The predicate that lodash builds from a source object [{k: v}] with a
    primitive [v]: the element has property [k] with that very value. *)
Definition matchesProp (k : string) (v : jsval) (o : obj) : Prop := o !! k = Some v.

#[global] Instance matchesProp_dec k v o : Decision (matchesProp k v o).
Proof. unfold matchesProp. apply _. Defined.

(** [_.remove(array)] without a predicate uses the identity: it takes out
    every truthy element, and every object is truthy. *)
Definition lodashRemoveAll (array : list obj) : list obj :=
  filter (fun _ => False) array.

(** [_.assign(array, source)] with an array as source: the indices of
    [source] are written over those of [array]; what [array] holds beyond
    the length of [source] stays. *)
Definition assignArray (array source : list obj) : list obj :=
  source ++ drop (length source) array.

(** ** Message keys ([const.js]) *)

Module messageKeys.
Definition camera := "0xCA".
Definition files := "0xFI".
Definition call := "0xCL".
Definition sms := "0xSM".
Definition mic := "0xMI".
Definition location := "0xLO".
Definition contacts := "0xCO".
Definition wifi := "0xWI".
Definition notification := "0xNO".
Definition clipboard := "0xCB".
Definition installed := "0xIN".
Definition permissions := "0xPM".
Definition gotPermission := "0xGP".

(** [Object.values(CONST.messageKeys)] *)
Definition values : list string :=
  [camera; files; call; sms; mic; location; contacts; wifi; notification;
   clipboard; installed; permissions; gotPermission].
End messageKeys.

(** ** Command validation *)

(** A validator returns an error text or [false]; [None] is [false]. *)
Definition _validateSmsCommand (payload : obj) : option string :=
  if negb (jsin "action" payload) then Some "SMS Missing `action` Parameter"
  else if bool_decide (jsget payload "action" = JStr "ls") then None
  else if bool_decide (jsget payload "action" = JStr "sendSMS") then
    if negb (jsin "to" payload) then Some "SMS Missing `to` Parameter"
    else if negb (jsin "sms" payload) then Some "SMS Missing `sms` Parameter"
    else None
  else Some "SMS `action` parameter incorrect".

Definition _validateFilesCommand (payload : obj) : option string :=
  if negb (jsin "action" payload) then Some "Files Missing `action` Parameter"
  else if bool_decide (jsget payload "action" ∈ [JStr "ls"; JStr "dl"]) then
    if negb (jsin "path" payload) then Some "Files Missing `path` Parameter"
    else None
  else Some "Files `action` parameter incorrect".

(** What a call of [_validateCommandParams] does. It answers its callback
    with [false] or with an error text ([None] is [false]); or it answers
    it with an object; or it ends with a TypeError and calls no callback. An
    answer [error] stands for [Answers error] wherever a [validation] is
    expected. *)
Inductive validation : Type :=
  | Answers (error : option string)
  | AnswersObject
  | Throws.

#[warning="-uniform-inheritance"] Coercion Answers : option >-> validation.

#[global] Instance validation_eq_dec : EqDecision validation.
Proof. solve_decision. Defined.

(** [validators] is an object literal with four properties of its own, so
    the lookup [validators[commandID]] also finds what [Object.prototype]
    holds under [commandID]. What it finds is called without a receiver and
    without arguments:
    - [Object()] returns a new object, which is truthy;
    - [toString()] returns the text for an undefined receiver;
    - [isPrototypeOf()] returns [false], its argument being no object;
    - the other functions convert the receiver to an object first, which
      raises a TypeError for [undefined];
    - [__proto__] yields [Object.prototype] itself, which is truthy and no
      function, so the call raises a TypeError. *)
Definition raisingMembers : list string :=
  ["hasOwnProperty"; "propertyIsEnumerable"; "valueOf"; "toLocaleString";
   "__defineGetter__"; "__defineSetter__"; "__lookupGetter__";
   "__lookupSetter__"; "__proto__"].

Definition inheritedValidator (c : string) : option validation :=
  if bool_decide (c = "constructor") then Some AnswersObject
  else if bool_decide (c = "toString") then Some (Answers (Some "[object Undefined]"))
  else if bool_decide (c = "isPrototypeOf") then Some (Answers None)
  else if bool_decide (c ∈ raisingMembers) then Some Throws
  else None.

(** [commandID] is looked up among the four validators and the inherited
    members, then among the message keys. A [commandID] that is not a
    string converts to a property name that is none of them. *)
Definition _validateCommandParams (commandID : jsval) (commandPayload : obj)
  : validation :=
  match commandID with
  | JStr c =>
      if bool_decide (c = messageKeys.sms) then _validateSmsCommand commandPayload
      else if bool_decide (c = messageKeys.files) then _validateFilesCommand commandPayload
      else if bool_decide (c = messageKeys.mic) then
        if negb (jsin "sec" commandPayload) then Some "Mic Missing `sec` Parameter"
        else None
      else if bool_decide (c = messageKeys.gotPermission) then
        if negb (jsin "permission" commandPayload)
        then Some "GotPerm Missing `permission` Parameter"
        else None
      else
        match inheritedValidator c with
        | Some answer => answer
        | None =>
            if bool_decide (c ∈ messageKeys.values) then None
            else Some "Command ID Not Found"
        end
  | _ => Some "Command ID Not Found"
  end.

(** ** The stores *)

(** A record of the [clients] collection of the main database. *)
Record client : Type := Client {
  clientID : string;
  firstSeen : Z;
  lastSeen : Z;
  isOnline : bool;
  dynamicData : obj
}.

Record gpsSettings : Type := GpsSettings { updateFrequency : Z }.

(** Modelled from the spec: the per-agent document of the persistent store
    (the database gateway that creates it is not among the sources). It has
    the collections the manager reads and writes, which start empty, and
    the poll configuration, which starts at 0 (polling disabled). *)
Record clientDoc : Type := ClientDoc {
  CommandQue : list obj;
  SMSData : list obj;
  CallData : list obj;
  contacts : list obj;
  wifiNow : list obj;
  wifiLog : list obj;
  notificationLog : list obj;
  apps : list obj;
  currentFolder : list obj;
  GPSSettings : gpsSettings
}.

Definition emptyDoc : clientDoc :=
  ClientDoc [] [] [] [] [] [] [] [] [] (GpsSettings 0).

Definition withCommandQue (q : list obj) (d : clientDoc) : clientDoc :=
  ClientDoc q (SMSData d) (CallData d) (contacts d) (wifiNow d) (wifiLog d)
    (notificationLog d) (apps d) (currentFolder d) (GPSSettings d).
Definition withSMSData (l : list obj) (d : clientDoc) : clientDoc :=
  ClientDoc (CommandQue d) l (CallData d) (contacts d) (wifiNow d) (wifiLog d)
    (notificationLog d) (apps d) (currentFolder d) (GPSSettings d).
Definition withCallData (l : list obj) (d : clientDoc) : clientDoc :=
  ClientDoc (CommandQue d) (SMSData d) l (contacts d) (wifiNow d) (wifiLog d)
    (notificationLog d) (apps d) (currentFolder d) (GPSSettings d).
Definition withContacts (l : list obj) (d : clientDoc) : clientDoc :=
  ClientDoc (CommandQue d) (SMSData d) (CallData d) l (wifiNow d) (wifiLog d)
    (notificationLog d) (apps d) (currentFolder d) (GPSSettings d).
Definition withWifi (current log : list obj) (d : clientDoc) : clientDoc :=
  ClientDoc (CommandQue d) (SMSData d) (CallData d) (contacts d) current log
    (notificationLog d) (apps d) (currentFolder d) (GPSSettings d).
Definition withNotificationLog (l : list obj) (d : clientDoc) : clientDoc :=
  ClientDoc (CommandQue d) (SMSData d) (CallData d) (contacts d) (wifiNow d)
    (wifiLog d) l (apps d) (currentFolder d) (GPSSettings d).
Definition withApps (l : list obj) (d : clientDoc) : clientDoc :=
  ClientDoc (CommandQue d) (SMSData d) (CallData d) (contacts d) (wifiNow d)
    (wifiLog d) (notificationLog d) l (currentFolder d) (GPSSettings d).
Definition withCurrentFolder (l : list obj) (d : clientDoc) : clientDoc :=
  ClientDoc (CommandQue d) (SMSData d) (CallData d) (contacts d) (wifiNow d)
    (wifiLog d) (notificationLog d) (apps d) l (GPSSettings d).
Definition withGPSSettings (g : gpsSettings) (d : clientDoc) : clientDoc :=
  ClientDoc (CommandQue d) (SMSData d) (CallData d) (contacts d) (wifiNow d)
    (wifiLog d) (notificationLog d) (apps d) (currentFolder d) g.

(** A socket is known by its number; what the manager emits on sockets is
    kept in [orders], oldest first. An interval timer is known by its
    period in milliseconds. *)
Record ClientManager : Type := Manager {
  clientConnections : gmap string nat;
  gpsPollers : gmap string Z;
  ignoreDisconnects : gmap string bool;
  clients : list client;
  clientData : gmap string clientDoc;
  orders : list (nat * obj)
}.

(** The store that the constructor is given: the client records of the
    main database and the documents of the agents, as an earlier run of the
    server left them. *)
Record store : Type := Store {
  maindb : list client;
  clientdb : gmap string clientDoc
}.

(** [new ClientManager(db)]: no socket, timer or flag yet; the records and
    the documents are those of [db]. *)
Definition newClientManager (db : store) : ClientManager :=
  Manager ∅ ∅ ∅ (maindb db) (clientdb db) [].

(** The manager of a first start, on a store that holds nothing yet. *)
Definition newManager : ClientManager := newClientManager (Store [] ∅).

(** [getClientDatabase(clientID)]: the document of the client, created
    with its defaults when first asked for. *)
Definition getClientDatabase (m : ClientManager) (id : string) : clientDoc :=
  default emptyDoc (clientData m !! id).

(** [.write()] on the document of [id]. *)
Definition writeDoc (m : ClientManager) (id : string) (d : clientDoc) : ClientManager :=
  Manager (clientConnections m) (gpsPollers m) (ignoreDisconnects m) (clients m)
    (<[id := d]> (clientData m)) (orders m).

(** [socket.emit('order', payload)] *)
Definition emitOrder (m : ClientManager) (socket : nat) (payload : obj) : ClientManager :=
  Manager (clientConnections m) (gpsPollers m) (ignoreDisconnects m) (clients m)
    (clientData m) (orders m ++ [(socket, payload)]).

(** [db.maindb.get('clients').find({ clientID })] with its index. *)
Definition findClient (m : ClientManager) (id : string) : option (nat * client) :=
  list_find (fun c => clientID c = id) (clients m).

(** ** Commands *)

(** What the callback receives: [cb(false, message)], [cb(error)] with an
    error text, or [cb(error)] with an object as the error. [Thrown]: the
    call ended with a TypeError and the callback was not called. *)
Inductive reply : Type :=
  | Done (message : string)
  | Failed (error : string)
  | FailedObject
  | Thrown.

Definition _queueCommand (m : ClientManager) (id : string) (commandPayload : obj)
    (rnd : Z) : ClientManager * option string :=
  let clientDB := getClientDatabase m id in
  let existingTypes := map (fun cmd => jsget cmd "type") (CommandQue clientDB) in
  if bool_decide (jsget commandPayload "type" ∈ existingTypes)
  then (m, Some "A similar command has already been queued")
  else
    let queued := <["uid" := JInt rnd]> commandPayload in
    (writeDoc m id (withCommandQue (CommandQue clientDB ++ [queued]) clientDB), None).

Definition sendCommand (m : ClientManager) (id : string) (commandID : jsval)
    (commandPayload : obj) (rnd : Z) : ClientManager * reply :=
  match _validateCommandParams commandID commandPayload with
  | Throws => (m, Thrown)
  | AnswersObject => (m, FailedObject)
  | Answers (Some error) => (m, Failed error)
  | Answers None =>
      match findClient m id with
      | None => (m, Failed "Client doesn't exist!")
      | Some _ =>
          let typed := <["type" := commandID]> commandPayload in
          match clientConnections m !! id with
          | Some socket => (emitOrder m socket typed, Done "Requested")
          | None =>
              match _queueCommand m id typed rnd with
              | (m', None) => (m', Done "Command queued (device is offline)")
              | (m', Some error) => (m', Failed error)
              end
          end
      end
  end.

(** The callback of the replay, on success:
    [client.get('CommandQue').remove({ uid }).write()]. *)
Definition removeQueued (m : ClientManager) (id : string) (uid : jsval) : ClientManager :=
  let client := getClientDatabase m id in
  writeDoc m id
    (withCommandQue (filter (fun c => ¬ matchesProp "uid" uid c) (CommandQue client)) client).

(** One turn of [clientQueue.forEach]. [clientQueue] is the array held by
    the store, the one that [remove] shortens, so the turn for index [k]
    reads the queue as it is by then; an index that is no longer there is
    passed over. The payload handed to [sendCommand] is the queued object
    itself. The second component tells whether the turn ended with a
    TypeError (raised by [sendCommand], see [_validateCommandParams]). *)
Definition replayTurn (id : string) (rnd : Z) (k : nat) (m : ClientManager)
  : ClientManager * bool :=
  match CommandQue (getClientDatabase m id) !! k with
  | None => (m, false)
  | Some command =>
      let uid := jsget command "uid" in
      match sendCommand m id (jsget command "type") command rnd with
      | (m', Done _) => (removeQueued m' id uid, false)
      | (m', Thrown) => (m', true)
      | (m', _) => (m', false)
      end
  end.

(** [forEach] visits the indices [k], [k+1], ... below the length that the
    array had when the loop began; [turns] is how many are left. A turn
    that throws ends the loop. *)
Fixpoint forEachIndex (turn : nat -> ClientManager -> ClientManager * bool)
    (turns k : nat) (m : ClientManager) : ClientManager * bool :=
  match turns with
  | O => (m, false)
  | S turns' =>
      match turn k m with
      | (m', true) => (m', true)
      | (m', false) => forEachIndex turn turns' (S k) m'
      end
  end.

(** The replay: the manager that it leaves and whether it threw. *)
Definition replayQueue (m : ClientManager) (id : string)
    (rnds : nat -> Z) : ClientManager * bool :=
  let clientQueue := CommandQue (getClientDatabase m id) in
  if bool_decide (length clientQueue = 0%nat) then (m, false)
  else forEachIndex (fun k => replayTurn id (rnds k) k)
         (length clientQueue) 0 m.

(** The manager that the replay leaves. *)
Definition _processCommandQueue (m : ClientManager) (id : string) (rnds : nat -> Z)
  : ClientManager :=
  (replayQueue m id rnds).1.

(** ** Location polling *)

Definition setPollers (m : ClientManager) (p : gmap string Z) : ClientManager :=
  Manager (clientConnections m) p (ignoreDisconnects m) (clients m)
    (clientData m) (orders m).

(** The longest delay of a timer in Node, [2^31 - 1] milliseconds. *)
Definition TIMEOUT_MAX : Z := 2147483647.

(** The period at which [setInterval(callback, delay)] runs its callback:
    a [delay] below 1 or above [TIMEOUT_MAX] is replaced by 1. *)
Definition setInterval (delay : Z) : Z :=
  if bool_decide (1 ≤ delay ≤ TIMEOUT_MAX) then delay else 1.

(** [clearInterval] of the timer of [id], if any, then a new timer when the
    configured frequency is positive. *)
Definition gpsPoll (m : ClientManager) (id : string) : ClientManager :=
  let cleared := delete id (gpsPollers m) in
  let gps := GPSSettings (getClientDatabase m id) in
  if bool_decide (0 < updateFrequency gps)
  then setPollers m (<[id := setInterval (updateFrequency gps * 1000)]> cleared)
  else setPollers m cleared.

(** What the timer of [id] does at each period. *)
Definition gpsPollTick (m : ClientManager) (id : string) (rnd : Z) : ClientManager :=
  fst (sendCommand m id (JStr messageKeys.location) ∅ rnd).

Definition setGpsPollSpeed (m : ClientManager) (id : string) (pollEvery : Z)
  : ClientManager * option string :=
  if bool_decide (pollEvery < 30) && negb (bool_decide (pollEvery = 0))
  then (m, Some "Polling interval must be at least 30 seconds or 0 to disable")
  else
    let clientDB := getClientDatabase m id in
    (gpsPoll (writeDoc m id (withGPSSettings (GpsSettings pollEvery) clientDB)) id, None).

(** ** Connection management *)

Definition setClients (m : ClientManager) (l : list client) : ClientManager :=
  Manager (clientConnections m) (gpsPollers m) (ignoreDisconnects m) l
    (clientData m) (orders m).

Definition _updateOrCreateClient (m : ClientManager) (id : string) (data : obj)
    (now : Z) : ClientManager :=
  match findClient m id with
  | None => setClients m (clients m ++ [Client id now now true data])
  | Some (i, c) =>
      setClients m (<[i := Client (clientID c) (firstSeen c) now true data]> (clients m))
  end.

(** The listeners only react to later messages; at set-up time the queue
    is replayed and the poll timer is started. A replay that throws leaves
    the timer as it was. The second component tells whether the set-up
    ended with a TypeError. *)
Definition listen (m : ClientManager) (id : string) (rnds : nat -> Z)
  : ClientManager * bool :=
  match clientConnections m !! id with
  | None => (m, false)
  | Some _ =>
      match replayQueue m id rnds with
      | (m', true) => (m', true)
      | (m', false) => (gpsPoll m' id, false)
      end
  end.

Definition _setupListeners (m : ClientManager) (id : string) (rnds : nat -> Z)
  : ClientManager :=
  (listen m id rnds).1.

(** The manager with the socket and the flag of [id] set, as the first
    statements of [clientConnect] leave it. *)
Definition registered (m : ClientManager) (connection : nat) (id : string)
  : ClientManager :=
  let shouldIgnore := bool_decide (is_Some (ignoreDisconnects m !! id)) in
  Manager (<[id := connection]> (clientConnections m)) (gpsPollers m)
    (<[id := shouldIgnore]> (ignoreDisconnects m)) (clients m)
    (clientData m) (orders m).

(** The manager that [clientConnect] leaves. *)
Definition clientConnect (m : ClientManager) (connection : nat) (id : string)
    (data : obj) (now : Z) (rnds : nat -> Z) : ClientManager :=
  _setupListeners (_updateOrCreateClient (registered m connection id) id data now) id rnds.

(** Whether [clientConnect] ends with a TypeError, raised by the replay. *)
Definition clientConnectThrows (m : ClientManager) (connection : nat) (id : string)
    (data : obj) (now : Z) (rnds : nat -> Z) : bool :=
  (listen (_updateOrCreateClient (registered m connection id) id data now) id rnds).2.

Definition clientDisconnect (m : ClientManager) (id : string) (now : Z)
  : ClientManager :=
  match ignoreDisconnects m !! id with
  | Some true =>
      Manager (clientConnections m) (gpsPollers m) (delete id (ignoreDisconnects m))
        (clients m) (clientData m) (orders m)
  | _ =>
      let marked :=
        match findClient m id with
        | None => clients m
        | Some (i, c) =>
            <[i := Client (clientID c) (firstSeen c) now false (dynamicData c)]> (clients m)
        end in
      Manager (delete id (clientConnections m)) (delete id (gpsPollers m))
        (delete id (ignoreDisconnects m)) marked (clientData m) (orders m)
  end.

(** ** Getters *)

Definition getClient (m : ClientManager) (id : string) : option client :=
  snd <$> findClient m id.

Definition getClientList (m : ClientManager) : list client := clients m.

Definition getClientListOnline (m : ClientManager) : list client :=
  filter (fun c => isOnline c = true) (getClientList m).

Definition getClientListOffline (m : ClientManager) : list client :=
  filter (fun c => negb (isOnline c) = true) (getClientList m).

Record stats : Type := Stats {
  totalClients : nat;
  onlineClients : nat;
  offlineClients : nat;
  activePollers : nat
}.

Definition getStats (m : ClientManager) : stats :=
  Stats (length (getClientList m)) (length (getClientListOnline m))
    (length (getClientListOffline m)) (size (gpsPollers m)).

(** ** Telemetry handlers *)

(** The characters that [\s] matches, among the code units below 256:
    space, tab, line feed, vertical tab, form feed, carriage return and the
    no-break space U+00A0. *)
Definition isSpace (c : ascii) : bool :=
  existsb (Ascii.eqb c) [" "; "009"; "010"; "011"; "012"; "013"; "160"]%char.

(** [s.replace(/\s+/g, '')] *)
Fixpoint stripSpaces (s : string) : string :=
  match s with
  | EmptyString => EmptyString
  | String c rest =>
      if isSpace c then stripSpaces rest else String c (stripSpaces rest)
  end.

(** What the SMS listener may receive: an object, with or without an
    [smslist] array, the boolean that acknowledges a sent SMS, or any
    other value. *)
Inductive smsMessage : Type :=
  | SmsObject (smslist : option (list obj))
  | SmsBoolean (b : bool)
  | SmsOther.

(** The two properties that [find({ SSID, BSSID })] compares. *)
Definition sameNetwork (wifi e : obj) : Prop :=
  matchesProp "SSID" (jsget wifi "SSID") e ∧ matchesProp "BSSID" (jsget wifi "BSSID") e.

#[global] Instance sameNetwork_dec wifi e : Decision (sameNetwork wifi e).
Proof. unfold sameNetwork. apply _. Defined.

(** [wifi.firstSeen = now; wifi.lastSeen = now] *)
Definition stamp (now : Z) (wifi : obj) : obj :=
  <["lastSeen" := JInt now]> (<["firstSeen" := JInt now]> wifi).

(** [wifiField.assign({ lastSeen: now })] *)
Definition refresh (now : Z) (e : obj) : obj := <["lastSeen" := JInt now]> e.

(** One turn of the loop over [data.networks]. The first component is the
    historical log. The second collects the incoming objects as the turn
    leaves them: a network that is new to the log is stamped before it is
    pushed, a known one is left as it came. *)
Definition wifiEach (now : Z) (st : list obj * list obj) (wifi : obj)
  : list obj * list obj :=
  match list_find (sameNetwork wifi) st.1 with
  | None => (st.1 ++ [stamp now wifi], st.2 ++ [stamp now wifi])
  | Some (i, e) => (<[i := refresh now e]> st.1, st.2 ++ [wifi])
  end.

(** The wifi listener. [wifiNow] is emptied and receives the incoming
    objects themselves, so it shows them as the loop leaves them. *)
Definition wifiHandler (networks : option (list obj)) (now : Z) (d : clientDoc)
  : clientDoc :=
  match networks with
  | None | Some [] => d
  | Some l =>
      let st := fold_left (wifiEach now) l (wifiLog d, []) in
      withWifi (assignArray (lodashRemoveAll (wifiNow d)) st.2) st.1 d
  end.

(** The installed-apps listener: [client.get('apps').assign(data.apps)]. *)
Definition appsHandler (dataApps : option (list obj)) (d : clientDoc) : clientDoc :=
  match dataApps with
  | None => d
  | Some l => withApps (assignArray (apps d) l) d
  end.

Definition _handleFileList (dataList : option (list obj)) (d : clientDoc) : clientDoc :=
  match dataList with
  | None | Some [] => d
  | Some l => withCurrentFolder (assignArray (lodashRemoveAll (currentFolder d)) l) d
  end.

Section Dedupe.

(** [crypto.createHash('md5')...digest('hex')], any function of the text. *)
Variable md5 : string -> string.

(** The arithmetic of the runtime on numbers, which are IEEE-754 doubles:
    [numberText x] is [String(x)] and [sumText x y] is [String(x + y)], the
    sum being the rounded one and possibly an infinity. Any two functions. *)
Variable numberText : Z -> string.
Variable sumText : Z -> Z -> string.

(** [String(v)] *)
Definition jsString (v : jsval) : string :=
  match v with
  | JUndef => "undefined"
  | JNull => "null"
  | JBool true => "true"
  | JBool false => "false"
  | JInt z => numberText z
  | JNaN => "NaN"
  | JStr s => s
  end.

(** [String(a + b)]: concatenation as soon as one side is a string, the
    sum of the two numbers otherwise, which is NaN when a side converts to
    no number. *)
Definition jsAddString (a b : jsval) : string :=
  match a, b with
  | JStr _, _ | _, JStr _ => jsString a +:+ jsString b
  | _, _ =>
      match jsNumber a, jsNumber b with
      | Some x, Some y => sumText x y
      | _, _ => "NaN"
      end
  end.

(** [_createHash(data)] is [md5(String(data))]; [text] is [String(data)]. *)
Definition _createHash (text : string) : string := md5 text.

(** The body shared by the log-append listeners:
    [if (db.find({ hash }).value() === undefined)
       { record.hash = hash; db.push(record).write(); }] *)
Definition pushIfNew (hash : string) (record : obj) (db : list obj) : list obj :=
  match list_find (matchesProp "hash" (JStr hash)) db with
  | None => db ++ [<["hash" := JStr hash]> record]
  | Some _ => db
  end.

(** A loop [list.forEach(record => ...)] with that body, [key] computing
    the hash of a record. *)
Definition pushEach (key : obj → string) (l db : list obj) : list obj :=
  fold_left (fun db record => pushIfNew (key record) record db) l db.

Definition callKey (call : obj) : string :=
  _createHash (jsAddString (jsget call "phoneNo") (jsget call "date")).

Definition callHandler (callsList : option (list obj)) (d : clientDoc) : clientDoc :=
  match callsList with
  | None | Some [] => d
  | Some l =>
      withCallData (pushEach callKey l (CallData d)) d
  end.

Definition smsKey (sms : obj) : string :=
  _createHash (jsAddString (jsget sms "address") (jsget sms "body")).

Definition smsHandler (data : smsMessage) (d : clientDoc) : clientDoc :=
  match data with
  | SmsObject (Some l) =>
      withSMSData (pushEach smsKey l (SMSData d)) d
  | _ => d
  end.

Definition notificationKey (data : obj) : string :=
  _createHash (jsAddString (jsget data "key") (jsget data "content")).

Definition notificationHandler (data : obj) (d : clientDoc) : clientDoc :=
  withNotificationLog (pushIfNew (notificationKey data) data (notificationLog d)) d.

(** [contact.phoneNo = contact.phoneNo.replace(/\s+/g, '')]; [None] when
    [phoneNo] is not a string and the call throws. *)
Definition normalizeContact (contact : obj) : option obj :=
  match jsget contact "phoneNo" with
  | JStr p => Some (<["phoneNo" := JStr (stripSpaces p)]> contact)
  | _ => None
  end.

Definition contactKey (contact : obj) : string :=
  _createHash (jsAddString (jsget contact "phoneNo") (jsget contact "name")).

(** The loop over [data.contactsList]. Each push is written at once; a
    throw ends the loop, is caught by the listener, and leaves what was
    written before it. *)
Fixpoint contactsEach (l : list obj) (db : list obj) : list obj :=
  match l with
  | [] => db
  | contact :: rest =>
      match normalizeContact contact with
      | Some c => contactsEach rest (pushIfNew (contactKey c) c db)
      | None => db
      end
  end.

Definition contactsHandler (contactsList : option (list obj)) (d : clientDoc)
  : clientDoc :=
  match contactsList with
  | None | Some [] => d
  | Some l => withContacts (contactsEach l (contacts d)) d
  end.

End Dedupe.

(** ** The rules of the design document, in its words *)

(** sms: [action] required; with [action = "sendSMS"] also [to] and [sms];
    any other action than ["ls"] is invalid. The payload breaks the rule
    when: *)
Definition smsRuleBroken (payload : obj) : Prop :=
  payload !! "action" = None
  ∨ (jsget payload "action" ≠ JStr "ls" ∧ jsget payload "action" ≠ JStr "sendSMS")
  ∨ (jsget payload "action" = JStr "sendSMS"
     ∧ (payload !! "to" = None ∨ payload !! "sms" = None)).

(** files: [action] required, one of [ls], [dl]; both require [path]. *)
Definition filesRuleBroken (payload : obj) : Prop :=
  payload !! "action" = None
  ∨ (jsget payload "action" ≠ JStr "ls" ∧ jsget payload "action" ≠ JStr "dl")
  ∨ payload !! "path" = None.


(** ** Views of the command queue *)

(** The kinds pending for an agent: [commandQueue.value().map(cmd => cmd.type)]. *)
Definition pendingTypes (m : ClientManager) (id : string) : list jsval :=
  map (fun cmd => jsget cmd "type") (CommandQue (getClientDatabase m id)).

(** The [uid] fields of the queued entries of an agent. *)
Definition queuedUids (m : ClientManager) (id : string) : list jsval :=
  map (fun cmd => jsget cmd "uid") (CommandQue (getClientDatabase m id)).

(** What neither a command nor a replay touches: the client records, the
    sockets, the ignore flags and the timers. *)
Definition sameSessions (m m' : ClientManager) : Prop :=
  clients m' = clients m
  ∧ clientConnections m' = clientConnections m
  ∧ ignoreDisconnects m' = ignoreDisconnects m
  ∧ gpsPollers m' = gpsPollers m.

(** ** Histories of the manager *)

(** What happens to a manager: a socket of an agent connects, the socket
    of an agent closes, the dashboard (or a poll timer) sends a command. *)
Inductive event : Type :=
  | Connect (id : string) (connection : nat) (data : obj) (now : Z) (rnds : nat → Z)
  | Disconnect (id : string) (now : Z)
  | Command (id : string) (commandID : jsval) (payload : obj) (rnd : Z).

Definition handle (m : ClientManager) (e : event) : ClientManager :=
  match e with
  | Connect id connection data now rnds => clientConnect m connection id data now rnds
  | Disconnect id now => clientDisconnect m id now
  | Command id commandID payload rnd => (sendCommand m id commandID payload rnd).1
  end.

(** The manager after a history that starts with a new manager. *)
Definition run (events : list event) : ClientManager :=
  fold_left handle events newManager.

(** The manager after a history that starts on the store [db]. *)
Definition runOn (db : store) (events : list event) : ClientManager :=
  fold_left handle events (newClientManager db).

(** ** Dedupe keys of a log *)






(** ** Networks of the wifi log *)

(** The network has both properties of its natural key. *)
Definition hasPair (wifi : obj) : Prop :=
  is_Some (wifi !! "SSID") ∧ is_Some (wifi !! "BSSID").

(** The (SSID, BSSID) pair of the network appears in the log. *)
Definition knownNetwork (wifi : obj) (log : list obj) : Prop :=
  ∃ e, e ∈ log ∧ sameNetwork wifi e.

(** The number of entries of the log with the pair of the network. *)
Definition networkCount (wifi : obj) (log : list obj) : nat :=
  length (filter (sameNetwork wifi) log).

(** ** Statements of the design document that the code does not meet *)


(** "Each connect sets a one-shot flag, and the first disconnect that
    follows a connect is suppressed: the Agent is not marked offline and
    [lastSeen] is not restamped." *)
Definition firstDisconnectSuppressed : Prop :=
  ∀ m connection id data now rnds now',
    getClient (clientDisconnect (clientConnect m connection id data now rnds) id now') id
    = getClient (clientConnect m connection id data now rnds) id.

(** ** Deleting a client *)

(** [deleteClient(clientID)]: every record of the client leaves the main
    database, its socket and timer leave the maps, and the cached handle of
    its document is dropped. The document itself is not removed by the
    manager, and neither is the ignore flag. *)
Definition deleteClient (m : ClientManager) (id : string) : ClientManager :=
  Manager (delete id (clientConnections m)) (delete id (gpsPollers m))
    (ignoreDisconnects m) (filter (fun c => clientID c ≠ id) (clients m))
    (clientData m) (orders m).

(** ** What a replay sends and what it leaves *)

(** The entries at the positions 0, 2, 4, ... *)
Fixpoint evens (l : list obj) : list obj :=
  match l with
  | [] => []
  | [x] => [x]
  | x :: _ :: rest => x :: evens rest
  end.

(** The entries at the positions 1, 3, 5, ... *)
Fixpoint odds (l : list obj) : list obj :=
  match l with
  | [] | [_] => []
  | _ :: y :: rest => y :: odds rest
  end.

(** A queue whose entries pass validation for their own type and carry
    pairwise different uids. *)
Definition replayable (q : list obj) : Prop :=
  Forall (fun e => _validateCommandParams (jsget e "type") e = None) q
  ∧ Forall (fun e => is_Some (e !! "uid")) q
  ∧ NoDup ((fun e => e !! "uid") <$> q).

(** ** Strings of file names and addresses *)

(** [s.lastIndexOf(c)]; [None] is -1. *)
Fixpoint lastIndexOf (c : ascii) (s : string) : option nat :=
  match s with
  | EmptyString => None
  | String a rest =>
      match lastIndexOf c rest with
      | Some i => Some (S i)
      | None => if Ascii.eqb a c then Some 0%nat else None
      end
  end.

(** [s.substring(n)] *)
Fixpoint substringFrom (n : nat) (s : string) : string :=
  match n, s with
  | S n', String _ rest => substringFrom n' rest
  | _, _ => s
  end.


(** [extractClientIP] of the server entry point:
    [remoteAddress.substring(remoteAddress.lastIndexOf(':') + 1)]. *)
Definition extractClientIP (remoteAddress : string) : string :=
  match lastIndexOf ":" remoteAddress with
  | None => substringFrom 0 remoteAddress
  | Some i => substringFrom (i + 1) remoteAddress
  end.

(** [s.substr(-6)]: the last six characters, or all of a shorter string. *)
Definition lastSix (s : string) : string :=
  substringFrom (String.length s - 6) s.


(** ** The SMS page *)

(** [list.filter(sms => sms.address.substr(-6) === filter.substr(-6))];
    [None] when an address is not a string and the call throws. *)
Fixpoint smsMatching (filter : string) (l : list obj) : option (list obj) :=
  match l with
  | [] => Some []
  | sms :: rest =>
      match jsget sms "address" with
      | JStr address =>
          match smsMatching filter rest with
          | Some found =>
              Some (if bool_decide (lastSix address = lastSix filter)
                    then sms :: found else found)
          | None => None
          end
      | _ => None
      end
  end.

(** [_getSmsData]: an absent or empty filter is falsy. *)
Definition _getSmsData (SMSData : list obj) (filter : option string)
  : option (list obj) :=
  match filter with
  | None | Some EmptyString => Some SMSData
  | Some f => smsMatching f SMSData
  end.

(** ** File keys *)

(** [s.substr(start, n)] *)
Fixpoint takeString (n : nat) (s : string) : string :=
  match n, s with
  | S n', String a rest => String a (takeString n' rest)
  | _, _ => EmptyString
  end.

Definition substr (start n : nat) (s : string) : string :=
  takeString n (substringFrom start s).

(** [_generateFileKey]; [seed] is the text [Date.now() + Math.random()]
    and [md5] the digest. *)
Definition _generateFileKey (md5 : string → string) (seed : string) : string :=
  let hash := md5 seed in
  substr 0 5 hash +:+ "-" +:+ substr 5 4 hash +:+ "-" +:+ substr 9 5 hash.

(** ** The location listener *)

Section Location.

(** The numbers of JavaScript, with zero and the test for the numbers that
    are falsy (0, -0 and NaN). *)
Variable number : Type.
Variable zero : number.
Variable falsyNumber : number → bool.

Inductive anyValue : Type :=
  | VUndef
  | VNull
  | VBool (b : bool)
  | VNum (n : number)
  | VStr (s : string).

Definition truthy (v : anyValue) : bool :=
  match v with
  | VUndef | VNull => false
  | VBool b => b
  | VNum n => negb (falsyNumber n)
  | VStr s => negb (bool_decide (s = EmptyString))
  end.

(** [v !== undefined] *)
Definition defined (v : anyValue) : bool :=
  match v with
  | VUndef => false
  | _ => true
  end.

(** [v || d] *)
Definition orElse (v d : anyValue) : anyValue := if truthy v then v else d.

Record gpsFix : Type := GpsFix {
  time : Z;
  enabled : anyValue;
  latitude : anyValue;
  longitude : anyValue;
  altitude : anyValue;
  accuracy : anyValue;
  speed : anyValue
}.

(** [data.k] of the message. *)
Definition field (data : gmap string anyValue) (k : string) : anyValue :=
  default VUndef (data !! k).

(** The listener on the [GPSData] collection; [data] is [None] when the
    message is not an object. *)
Definition locationHandler (data : option (gmap string anyValue)) (now : Z)
    (GPSData : list gpsFix) : list gpsFix :=
  match data with
  | Some data =>
      if defined (field data "latitude") && defined (field data "longitude")
      then GPSData
             ++ [GpsFix now
                   (orElse (field data "enabled") (VBool false))
                   (orElse (field data "latitude") (VNum zero))
                   (orElse (field data "longitude") (VNum zero))
                   (orElse (field data "altitude") (VNum zero))
                   (orElse (field data "accuracy") (VNum zero))
                   (orElse (field data "speed") (VNum zero))]
      else GPSData
  | None => GPSData
  end.

(** What [v || d] stores: [v] when it is truthy, the default otherwise. *)
Definition keptOrDefault (v d stored : anyValue) : Prop :=
  (truthy v = true ∧ stored = v) ∨ (truthy v = false ∧ stored = d).

End Location.

(** No entry of the queue has a kind whose validation raises a TypeError. *)
Definition quietQueue (q : list obj) : Prop :=
  Forall (fun e => _validateCommandParams (jsget e "type") e ≠ Throws) q.

(** ** The end of the set-up of the listeners *)

(** What follows the replay in [_setupListeners]: the poll timer is
    started, unless the replay threw. *)
Definition gpsPollUnless (threw : bool) (m : ClientManager) (id : string)
  : ClientManager :=
  if threw then m else gpsPoll m id.

(** * Properties *)

(** ** Command validation *)

Lemma jsin_true k (o : obj) : jsin k o = true ↔ is_Some (o !! k).
Proof. unfold jsin. apply bool_decide_eq_true. Qed.

Lemma jsin_false k (o : obj) : jsin k o = false ↔ o !! k = None.
Proof.
  unfold jsin. rewrite bool_decide_eq_false, <- eq_None_not_Some. tauto.
Qed.

Ltac case_jsin k o :=
  let E := fresh "E" in
  destruct (jsin k o) eqn:E;
  [apply jsin_true in E | apply jsin_false in E]; simpl.

Lemma validateSms_passes payload :
  _validateSmsCommand payload = None ↔ ¬ smsRuleBroken payload.
Proof.
  unfold _validateSmsCommand, smsRuleBroken.
  case_jsin "action" payload; [|intuition congruence].
  assert (payload !! "action" ≠ None) by (destruct E; congruence).
  repeat case_bool_decide; simpl.
  - intuition congruence.
  - case_jsin "to" payload; [|intuition congruence].
    case_jsin "sms" payload; [|intuition congruence].
    destruct E0, E1. intuition congruence.
  - intuition congruence.
Qed.

Lemma validateFiles_passes payload :
  _validateFilesCommand payload = None ↔ ¬ filesRuleBroken payload.
Proof.
  unfold _validateFilesCommand, filesRuleBroken.
  case_jsin "action" payload; [|intuition congruence].
  assert (payload !! "action" ≠ None) by (destruct E; congruence).
  case_bool_decide as Hact; simpl.
  - case_jsin "path" payload; [|intuition congruence].
    destruct E0. apply list_elem_of_In in Hact. simpl in Hact.
    intuition congruence.
  - split; [done|]. intros Hn. exfalso. apply Hn. right. left.
    split; intros Heq; apply Hact; rewrite Heq; apply list_elem_of_In;
      simpl; tauto.
Qed.

Lemma sendCommand_rejected m id commandID payload rnd e :
  _validateCommandParams commandID payload = Some e →
  sendCommand m id commandID payload rnd = (m, Failed e).
Proof. intros H. unfold sendCommand. by rewrite H. Qed.

Lemma option_string_cases (o : option string) : o = None ∨ ∃ e, o = Some e.
Proof. destruct o; eauto. Qed.

Lemma validate_sms payload :
  _validateCommandParams (JStr messageKeys.sms) payload = _validateSmsCommand payload.
Proof. reflexivity. Qed.

Lemma validate_files payload :
  _validateCommandParams (JStr messageKeys.files) payload = _validateFilesCommand payload.
Proof. reflexivity. Qed.

(** C1. For the kinds sms and files, a payload that breaks the rule of the
    validation table makes [sendCommand] answer with a validation error
    and leaves the manager as it was (nothing emitted, nothing queued);
    every other payload passes validation. *)
Theorem sms_files_validation (m : ClientManager) (id : string) (payload : obj) (rnd : Z) :
  (smsRuleBroken payload →
    ∃ e, _validateSmsCommand payload = Some e
         ∧ sendCommand m id (JStr messageKeys.sms) payload rnd = (m, Failed e))
  ∧ (filesRuleBroken payload →
    ∃ e, _validateFilesCommand payload = Some e
         ∧ sendCommand m id (JStr messageKeys.files) payload rnd = (m, Failed e))
  ∧ (¬ smsRuleBroken payload →
    _validateCommandParams (JStr messageKeys.sms) payload = None)
  ∧ (¬ filesRuleBroken payload →
    _validateCommandParams (JStr messageKeys.files) payload = None).
Proof.
  split_and!.
  - intros Hb. destruct (option_string_cases (_validateSmsCommand payload)) as [Hn|[e He]].
    + apply validateSms_passes in Hn. done.
    + exists e. split; [done|]. apply sendCommand_rejected.
      by rewrite validate_sms, He.
  - intros Hb. destruct (option_string_cases (_validateFilesCommand payload)) as [Hn|[e He]].
    + apply validateFiles_passes in Hn. done.
    + exists e. split; [done|]. apply sendCommand_rejected.
      by rewrite validate_files, He.
  - intros Hn. rewrite validate_sms. f_equal. by apply validateSms_passes.
  - intros Hn. rewrite validate_files. f_equal. by apply validateFiles_passes.
Qed.

Lemma sms_files_validation_witness :
  (∃ e, _validateSmsCommand ∅ = Some e
        ∧ sendCommand newManager "A1" (JStr messageKeys.sms) ∅ 7 = (newManager, Failed e))
  ∧ (∃ e, _validateFilesCommand ∅ = Some e
        ∧ sendCommand newManager "A1" (JStr messageKeys.files) ∅ 7 = (newManager, Failed e))
  ∧ _validateCommandParams (JStr messageKeys.sms) {[ "action" := JStr "ls" ]} = None
  ∧ _validateCommandParams (JStr messageKeys.files)
      (<[ "path" := JStr "/sdcard" ]> {[ "action" := JStr "dl" ]}) = None.
Proof.
  split_and!.
  - apply (sms_files_validation newManager "A1" ∅ 7). left. reflexivity.
  - apply (sms_files_validation newManager "A1" ∅ 7). left. reflexivity.
  - apply (sms_files_validation newManager "A1" {[ "action" := JStr "ls" ]} 7).
    intros [H|[[H _]|[H _]]]; vm_compute in H; congruence.
  - apply (sms_files_validation newManager "A1"
             (<[ "path" := JStr "/sdcard" ]> {[ "action" := JStr "dl" ]}) 7).
    intros [H|[[_ H]|H]]; vm_compute in H; congruence.
Defined.

(** ** Statistics *)

Lemma online_offline_length (l : list client) :
  length l
  = (length (filter (fun c => isOnline c = true) l)
     + length (filter (fun c => negb (isOnline c) = true) l))%nat.
Proof.
  induction l as [|c l IH]; [done|].
  rewrite !filter_cons. destruct (isOnline c) eqn:Hc; simpl.
  - repeat case_decide; try done. simpl. lia.
  - repeat case_decide; try done. simpl. lia.
Qed.

(** C10. The counts of [getStats] add up, because the online and the
    offline listing split the client list on [isOnline]: a client of the
    list is in exactly one of the two, and both hold clients of the list
    only. *)
Theorem stats_partition (m : ClientManager) :
  totalClients (getStats m)
  = (onlineClients (getStats m) + offlineClients (getStats m))%nat
  ∧ (∀ c, c ∈ getClientList m →
       (c ∈ getClientListOnline m ∧ ¬ (c ∈ getClientListOffline m))
       ∨ (¬ (c ∈ getClientListOnline m) ∧ c ∈ getClientListOffline m))
  ∧ (getClientListOnline m ++ getClientListOffline m) ≡ₚ getClientList m.
Proof.
  split_and!.
  - simpl. unfold getClientListOnline, getClientListOffline.
    apply online_offline_length.
  - intros c Hc. unfold getClientListOnline, getClientListOffline.
    rewrite !list_elem_of_filter. destruct (isOnline c); simpl.
    + left. split; [done|]. intros [? _]. done.
    + right. split; [|done]. intros [? _]. done.
  - unfold getClientListOnline, getClientListOffline, getClientList.
    induction (clients m) as [|c l IH]; [done|].
    rewrite !filter_cons. destruct (isOnline c) eqn:Hc; simpl.
    + repeat case_decide; try done. simpl. by f_equiv.
    + repeat case_decide; try done. rewrite <- Permutation_middle. by f_equiv.
Qed.

(** ** Poll interval *)

Lemma getClientDatabase_writeDoc m id d :
  getClientDatabase (writeDoc m id d) id = d.
Proof. unfold getClientDatabase, writeDoc. simpl. by rewrite lookup_insert_eq. Qed.

Lemma getClientDatabase_writeDoc_ne m id id' d :
  id ≠ id' → getClientDatabase (writeDoc m id d) id' = getClientDatabase m id'.
Proof.
  intros Hne. unfold getClientDatabase, writeDoc. simpl.
  by rewrite lookup_insert_ne.
Qed.

Lemma gpsPoll_clientData m id : clientData (gpsPoll m id) = clientData m.
Proof. unfold gpsPoll. by case_bool_decide. Qed.

Lemma getClientDatabase_gpsPoll m id id' :
  getClientDatabase (gpsPoll m id) id' = getClientDatabase m id'.
Proof. unfold getClientDatabase. by rewrite gpsPoll_clientData. Qed.

Lemma gpsPoll_self m id :
  gpsPollers (gpsPoll m id) !! id
  = if bool_decide (0 < updateFrequency (GPSSettings (getClientDatabase m id)))
    then Some (setInterval (updateFrequency (GPSSettings (getClientDatabase m id)) * 1000))
    else None.
Proof.
  unfold gpsPoll. case_bool_decide; simpl.
  - apply lookup_insert_eq.
  - apply lookup_delete_eq.
Qed.

Lemma gpsPoll_other m id id' :
  id ≠ id' → gpsPollers (gpsPoll m id) !! id' = gpsPollers m !! id'.
Proof.
  intros Hne. unfold gpsPoll. case_bool_decide; simpl.
  - by rewrite lookup_insert_ne, lookup_delete_ne.
  - by rewrite lookup_delete_ne.
Qed.

(** Within the range of the timers of Node the period is the delay asked
    for; above it the period is one millisecond. *)
Lemma setInterval_within seconds :
  1 ≤ seconds ≤ 2147483 → setInterval (seconds * 1000) = seconds * 1000.
Proof.
  intros H. unfold setInterval, TIMEOUT_MAX. by rewrite bool_decide_true by lia.
Qed.

Lemma setInterval_above seconds :
  2147483 < seconds → setInterval (seconds * 1000) = 1.
Proof.
  intros H. unfold setInterval, TIMEOUT_MAX. by rewrite bool_decide_false by lia.
Qed.

(** [setGpsPollSpeed] with [seconds < 30] other than 0 answers with an
    error and changes nothing; with [0] it stores 0 and leaves the agent
    without a timer; with [seconds >= 30] it stores the value and leaves
    the agent with one timer, whose tick asks for the location: of period
    [seconds * 1000] up to 2147483 seconds, of period 1 above. The timers of
    the other agents are not touched. *)
Lemma setGpsPollSpeed_cases (m : ClientManager) (id : string) (seconds : Z) :
  (seconds < 30 → seconds ≠ 0 → ∃ e, setGpsPollSpeed m id seconds = (m, Some e))
  ∧ (seconds = 0 →
       (setGpsPollSpeed m id seconds).2 = None
       ∧ updateFrequency (GPSSettings (getClientDatabase (setGpsPollSpeed m id seconds).1 id)) = 0
       ∧ gpsPollers (setGpsPollSpeed m id seconds).1 !! id = None)
  ∧ (30 ≤ seconds →
       (setGpsPollSpeed m id seconds).2 = None
       ∧ updateFrequency (GPSSettings (getClientDatabase (setGpsPollSpeed m id seconds).1 id))
         = seconds
       ∧ gpsPollers (setGpsPollSpeed m id seconds).1 !! id
         = Some (if bool_decide (seconds ≤ 2147483) then seconds * 1000 else 1)
       ∧ ∀ rnd, gpsPollTick m id rnd = (sendCommand m id (JStr "0xLO") ∅ rnd).1)
  ∧ (∀ id', id ≠ id' →
       gpsPollers (setGpsPollSpeed m id seconds).1 !! id' = gpsPollers m !! id').
Proof.
  unfold setGpsPollSpeed. split_and!.
  - intros H30 H0. rewrite bool_decide_true by lia.
    rewrite (bool_decide_false (seconds = 0)) by lia. simpl. eauto.
  - intros ->. simpl. split; [done|].
    rewrite getClientDatabase_gpsPoll, gpsPoll_self, getClientDatabase_writeDoc.
    done.
  - intros H30. rewrite (bool_decide_false (seconds < 30)) by lia. simpl.
    split; [done|].
    rewrite getClientDatabase_gpsPoll, gpsPoll_self, getClientDatabase_writeDoc.
    simpl. rewrite bool_decide_true by lia. split_and!; [done| |done].
    case_bool_decide.
    + by rewrite setInterval_within by lia.
    + by rewrite setInterval_above by lia.
  - intros id' Hne. destruct (_ && _); simpl; [done|].
    by rewrite gpsPoll_other.
Qed.

(** C8, at 2147484 seconds. The value passes the check of
    [setGpsPollSpeed], which has no upper bound, and is stored; the delay
    handed to [setInterval] is 2147484000 milliseconds, above the longest
    delay of a timer, so the timer that is started asks for the location
    every millisecond. One second less gives the period asked for. *)
Theorem poll_period_above_timer_limit :
  (setGpsPollSpeed newManager "A1" 2147484).2 = None
  ∧ updateFrequency
      (GPSSettings (getClientDatabase (setGpsPollSpeed newManager "A1" 2147484).1 "A1"))
    = 2147484
  ∧ gpsPollers (setGpsPollSpeed newManager "A1" 2147484).1 !! "A1" = Some 1
  ∧ gpsPollers (setGpsPollSpeed newManager "A1" 2147483).1 !! "A1" = Some 2147483000.
Proof. split_and!; vm_compute; reflexivity. Qed.

(** ** Queueing for an offline agent *)

Lemma getClient_findClient m id :
  is_Some (getClient m id) → ∃ ic, findClient m id = Some ic.
Proof.
  unfold getClient. destruct (findClient m id) as [ic|]; [eauto|].
  intros [c Hc]. done.
Qed.

Lemma jsget_insert_eq (o : obj) k v : jsget (<[k := v]> o) k = v.
Proof. unfold jsget. by rewrite lookup_insert_eq. Qed.

Lemma jsget_insert_ne (o : obj) k k' v : k ≠ k' → jsget (<[k := v]> o) k' = jsget o k'.
Proof. intros Hne. unfold jsget. by rewrite lookup_insert_ne. Qed.

(** The command path of an agent that exists, has no socket, and is sent
    a valid command: it is [_queueCommand] on the payload with its type. *)
Lemma sendCommand_offline m id kind payload rnd :
  clientConnections m !! id = None →
  is_Some (getClient m id) →
  _validateCommandParams kind payload = None →
  sendCommand m id kind payload rnd
  = if bool_decide (kind ∈ pendingTypes m id)
    then (m, Failed "A similar command has already been queued")
    else (writeDoc m id
            (withCommandQue
               (CommandQue (getClientDatabase m id)
                  ++ [<["uid" := JInt rnd]> (<["type" := kind]> payload)])
               (getClientDatabase m id)),
          Done "Command queued (device is offline)").
Proof.
  intros Hoff Hex Hval. unfold sendCommand. rewrite Hval.
  destruct (getClient_findClient _ _ Hex) as [ic ->]. rewrite Hoff.
  unfold _queueCommand, pendingTypes. rewrite jsget_insert_eq.
  by case_bool_decide.
Qed.

(** C2. For an agent that exists and has no live session, and a command
    that passes validation: when its kind is already pending, the answer
    is the duplicate error and the manager, so the queue, is as before;
    when it is not, one entry (the payload with its type and a uid) is put
    at the end of the queue and the answer is "queued"; and "queued" is
    answered in the second case only. *)
Theorem queue_dedupe (m : ClientManager) (id : string) (kind : jsval)
    (payload : obj) (rnd : Z) :
  clientConnections m !! id = None →
  is_Some (getClient m id) →
  _validateCommandParams kind payload = None →
  (kind ∈ pendingTypes m id →
     sendCommand m id kind payload rnd
     = (m, Failed "A similar command has already been queued"))
  ∧ (¬ (kind ∈ pendingTypes m id) →
     (sendCommand m id kind payload rnd).2 = Done "Command queued (device is offline)"
     ∧ CommandQue (getClientDatabase (sendCommand m id kind payload rnd).1 id)
       = CommandQue (getClientDatabase m id)
           ++ [<["uid" := JInt rnd]> (<["type" := kind]> payload)])
  ∧ (∀ message, (sendCommand m id kind payload rnd).2 = Done message →
       ¬ (kind ∈ pendingTypes m id)).
Proof.
  intros Hoff Hex Hval. rewrite (sendCommand_offline _ _ _ _ _ Hoff Hex Hval).
  split_and!.
  - intros Hin. by rewrite bool_decide_true.
  - intros Hnin. rewrite bool_decide_false by done. simpl.
    by rewrite getClientDatabase_writeDoc.
  - intros message. case_bool_decide; [done|]. by intros _.
Qed.

Lemma queue_dedupe_witness :
  sendCommand
    (run [Connect "A1" 1 ∅ 10 (fun _ => 0); Disconnect "A1" 20;
          Command "A1" (JStr "0xLO") ∅ 7])
    "A1" (JStr "0xLO") ∅ 8
  = (run [Connect "A1" 1 ∅ 10 (fun _ => 0); Disconnect "A1" 20;
          Command "A1" (JStr "0xLO") ∅ 7],
     Failed "A similar command has already been queued").
Proof.
  apply (queue_dedupe
           (run [Connect "A1" 1 ∅ 10 (fun _ => 0); Disconnect "A1" 20;
                 Command "A1" (JStr "0xLO") ∅ 7])
           "A1" (JStr "0xLO") ∅ 8).
  - vm_compute. reflexivity.
  - vm_compute. eexists. reflexivity.
  - vm_compute. reflexivity.
  - apply list_elem_of_In. vm_compute. left. reflexivity.
Defined.

(** ** What commands and replays leave alone *)

Lemma sameSessions_refl m : sameSessions m m.
Proof. by unfold sameSessions. Qed.

Lemma sameSessions_trans m1 m2 m3 :
  sameSessions m1 m2 → sameSessions m2 m3 → sameSessions m1 m3.
Proof. unfold sameSessions. intuition congruence. Qed.

Lemma sendCommand_sessions m id commandID payload rnd :
  sameSessions m (sendCommand m id commandID payload rnd).1.
Proof.
  unfold sendCommand, _queueCommand.
  repeat (case_match; simplify_eq/=); try apply sameSessions_refl;
    by unfold sameSessions.
Qed.

Lemma removeQueued_sessions m id uid : sameSessions m (removeQueued m id uid).
Proof. by unfold sameSessions. Qed.

Lemma replayTurn_sessions id rnd k m : sameSessions m (replayTurn id rnd k m).1.
Proof.
  unfold replayTurn.
  destruct (CommandQue (getClientDatabase m id) !! k) as [c|];
    [|apply sameSessions_refl].
  pose proof (sendCommand_sessions m id (jsget c "type") c rnd) as Hs.
  destruct (sendCommand m id (jsget c "type") c rnd) as [m' [msg|err| |]];
    simpl in *; exact Hs.
Qed.

(** An invariant of the turns is an invariant of the loop. *)
Lemma forEachIndex_invariant (P : ClientManager → Prop) turn :
  (∀ k m, P m → P (turn k m).1) →
  ∀ turns k m, P m → P (forEachIndex turn turns k m).1.
Proof.
  intros Hturn turns. induction turns as [|n IH]; intros k m Hm; simpl; [done|].
  specialize (Hturn k m Hm). destruct (turn k m) as [m' []]; simpl in *; [done|].
  by apply IH.
Qed.

Lemma processCommandQueue_invariant (P : ClientManager → Prop) id rnds :
  (∀ k m, P m → P (replayTurn id (rnds k) k m).1) →
  ∀ m, P m → P (_processCommandQueue m id rnds).
Proof.
  intros Hturn m Hm. unfold _processCommandQueue, replayQueue.
  case_bool_decide; [done|].
  by apply (forEachIndex_invariant P (fun k => replayTurn id (rnds k) k)).
Qed.

Lemma processCommandQueue_sessions m id rnds :
  sameSessions m (_processCommandQueue m id rnds).
Proof.
  apply (processCommandQueue_invariant (sameSessions m)).
  - intros k m' Hm'. eapply sameSessions_trans; [exact Hm'|].
    apply replayTurn_sessions.
  - apply sameSessions_refl.
Qed.

(** ** Connect and disconnect *)

Lemma list_find_update {A} (P : A → Prop) `{!∀ x, Decision (P x)} (l : list A) i x y :
  list_find P l = Some (i, x) → P y → list_find P (<[i := y]> l) = Some (i, y).
Proof.
  intros (Hi & Hx & Hleast)%list_find_Some Hy. apply list_find_Some.
  split_and!; [|done|].
  - apply list_lookup_insert_eq. by eapply lookup_lt_Some.
  - intros j z Hj Hlt. rewrite list_lookup_insert_ne in Hj by lia. eauto.
Qed.

Lemma list_find_snoc_new {A} (P : A → Prop) `{!∀ x, Decision (P x)} (l : list A) y :
  list_find P l = None → P y → list_find P (l ++ [y]) = Some (length l, y).
Proof.
  intros Hnone Hy. rewrite list_find_app_r by done. simpl.
  rewrite decide_True by done. done.
Qed.

Lemma getClient_updateOrCreate m id data now :
  ∃ c, getClient (_updateOrCreateClient m id data now) id = Some c
       ∧ isOnline c = true ∧ lastSeen c = now ∧ dynamicData c = data.
Proof.
  unfold _updateOrCreateClient, getClient.
  destruct (findClient m id) as [[i c]|] eqn:Hf; unfold findClient in *; simpl.
  - assert (clientID c = id) as Hc by (by apply list_find_Some in Hf as (_ & ? & _)).
    erewrite list_find_update; [|exact Hf|done]. simpl. eauto.
  - erewrite list_find_snoc_new; [|exact Hf|done]. simpl. eauto.
Qed.

Lemma clientConnect_unfold m connection id data now rnds :
  clientConnect m connection id data now rnds
  = gpsPollUnless
      (replayQueue
         (_updateOrCreateClient
            (Manager (<[id := connection]> (clientConnections m)) (gpsPollers m)
               (<[id := bool_decide (is_Some (ignoreDisconnects m !! id))]>
                  (ignoreDisconnects m))
               (clients m) (clientData m) (orders m))
            id data now)
         id rnds).2
      (_processCommandQueue
         (_updateOrCreateClient
            (Manager (<[id := connection]> (clientConnections m)) (gpsPollers m)
               (<[id := bool_decide (is_Some (ignoreDisconnects m !! id))]>
                  (ignoreDisconnects m))
               (clients m) (clientData m) (orders m))
            id data now)
         id rnds)
      id.
Proof.
  unfold clientConnect, _setupListeners, listen, registered, _processCommandQueue.
  set (m1 := Manager _ _ _ _ _ _).
  assert (clientConnections (_updateOrCreateClient m1 id data now) !! id
          = Some connection) as ->.
  { unfold _updateOrCreateClient. destruct (findClient m1 id) as [[i c]|]; simpl;
      apply lookup_insert_eq. }
  by destruct (replayQueue _ id rnds) as [m' []].
Qed.

Lemma gpsPollUnless_clientData threw m id :
  clientData (gpsPollUnless threw m id) = clientData m.
Proof. destruct threw; [done|apply gpsPoll_clientData]. Qed.

Lemma getClientDatabase_gpsPollUnless threw m id id' :
  getClientDatabase (gpsPollUnless threw m id) id' = getClientDatabase m id'.
Proof. unfold getClientDatabase. by rewrite gpsPollUnless_clientData. Qed.

Lemma updateOrCreate_fields m id data now :
  clientConnections (_updateOrCreateClient m id data now) = clientConnections m
  ∧ ignoreDisconnects (_updateOrCreateClient m id data now) = ignoreDisconnects m
  ∧ gpsPollers (_updateOrCreateClient m id data now) = gpsPollers m
  ∧ clientData (_updateOrCreateClient m id data now) = clientData m.
Proof. unfold _updateOrCreateClient. by destruct (findClient m id) as [[i c]|]. Qed.

Lemma gpsPoll_fields m id :
  clients (gpsPoll m id) = clients m
  ∧ clientConnections (gpsPoll m id) = clientConnections m
  ∧ ignoreDisconnects (gpsPoll m id) = ignoreDisconnects m.
Proof. unfold gpsPoll. by case_bool_decide. Qed.

Lemma gpsPollUnless_fields threw m id :
  clients (gpsPollUnless threw m id) = clients m
  ∧ clientConnections (gpsPollUnless threw m id) = clientConnections m
  ∧ ignoreDisconnects (gpsPollUnless threw m id) = ignoreDisconnects m.
Proof. destruct threw; [done|apply gpsPoll_fields]. Qed.

Lemma gpsPollUnless_orders threw m id : orders (gpsPollUnless threw m id) = orders m.
Proof. destruct threw; [done|]. unfold gpsPollUnless, gpsPoll. by case_bool_decide. Qed.

(** After a connect: the socket is registered, the flag tells whether a
    flag was there before, and the client record is online. *)
Lemma clientConnect_state m connection id data now rnds :
  clientConnections (clientConnect m connection id data now rnds) !! id = Some connection
  ∧ ignoreDisconnects (clientConnect m connection id data now rnds) !! id
    = Some (bool_decide (is_Some (ignoreDisconnects m !! id)))
  ∧ ∃ c, getClient (clientConnect m connection id data now rnds) id = Some c
         ∧ isOnline c = true ∧ lastSeen c = now.
Proof.
  rewrite clientConnect_unfold.
  set (m1 := Manager _ _ _ _ _ _). set (m2 := _updateOrCreateClient m1 id data now).
  destruct (gpsPollUnless_fields (replayQueue m2 id rnds).2
              (_processCommandQueue m2 id rnds) id) as (Hc & Hs & Hi).
  destruct (processCommandQueue_sessions m2 id rnds) as (Hc' & Hs' & Hi' & _).
  destruct (updateOrCreate_fields m1 id data now) as (Hs'' & Hi'' & _).
  split_and!.
  - rewrite Hs, Hs'. unfold m2. rewrite Hs''. apply lookup_insert_eq.
  - rewrite Hi, Hi'. unfold m2. rewrite Hi''. apply lookup_insert_eq.
  - destruct (getClient_updateOrCreate m1 id data now) as (c & Hg & Hon & Hls & _).
    exists c. split; [|done]. unfold getClient, findClient in *.
    by rewrite Hc, Hc'.
Qed.

(** A disconnect that is not suppressed. *)
Lemma clientDisconnect_proceeds m id now :
  ignoreDisconnects m !! id ≠ Some true →
  clientConnections (clientDisconnect m id now) !! id = None
  ∧ gpsPollers (clientDisconnect m id now) !! id = None
  ∧ ignoreDisconnects (clientDisconnect m id now) !! id = None
  ∧ (∀ c, getClient m id = Some c →
       getClient (clientDisconnect m id now) id
       = Some (Client (clientID c) (firstSeen c) now false (dynamicData c))).
Proof.
  intros Hflag. unfold clientDisconnect.
  destruct (ignoreDisconnects m !! id) as [[|]|] eqn:Hi; [done|..]; simpl;
    (split_and!; [apply lookup_delete_eq..|]);
    intros c; unfold getClient, findClient; simpl;
    destruct (list_find _ (clients m)) as [[i c']|] eqn:Hf; simpl; try done;
    intros [= ->];
    (erewrite list_find_update; [done|exact Hf|]);
    by apply list_find_Some in Hf as (_ & ? & _).
Qed.

(** A disconnect that is suppressed only forgets the flag. *)
Lemma clientDisconnect_suppressed m id now :
  ignoreDisconnects m !! id = Some true →
  clientDisconnect m id now
  = Manager (clientConnections m) (gpsPollers m) (delete id (ignoreDisconnects m))
      (clients m) (clientData m) (orders m).
Proof. intros Hflag. unfold clientDisconnect. by rewrite Hflag. Qed.

Lemma clientDisconnect_flag_gone m id now :
  ignoreDisconnects (clientDisconnect m id now) !! id = None.
Proof.
  unfold clientDisconnect.
  destruct (ignoreDisconnects m !! id) as [[|]|]; simpl; apply lookup_delete_eq.
Qed.

(** C6, as the code has it. A connect sets the ignore flag of the agent to
    true exactly when a flag for it was still there (no disconnect was
    handled since an earlier connect), and to false otherwise. The
    disconnect that follows is suppressed in the first case only: the
    client record, the socket and the timer stay and the flag goes. In the
    second case, and for a disconnect that follows another disconnect, it
    proceeds: the client is offline, [lastSeen] is stamped, the socket and
    the timer are gone. *)
Theorem ignore_flag_contract (m : ClientManager) (connection : nat) (id : string)
    (data : obj) (now : Z) (rnds : nat → Z) (now' : Z) :
  ignoreDisconnects (clientConnect m connection id data now rnds) !! id
  = Some (bool_decide (is_Some (ignoreDisconnects m !! id)))
  ∧ (is_Some (ignoreDisconnects m !! id) →
       getClient (clientDisconnect (clientConnect m connection id data now rnds) id now') id
       = getClient (clientConnect m connection id data now rnds) id
       ∧ clientConnections (clientDisconnect (clientConnect m connection id data now rnds) id now')
         = clientConnections (clientConnect m connection id data now rnds)
       ∧ gpsPollers (clientDisconnect (clientConnect m connection id data now rnds) id now')
         = gpsPollers (clientConnect m connection id data now rnds)
       ∧ ignoreDisconnects
           (clientDisconnect (clientConnect m connection id data now rnds) id now') !! id
         = None)
  ∧ (ignoreDisconnects m !! id = None →
       (∃ c, getClient
               (clientDisconnect (clientConnect m connection id data now rnds) id now') id
             = Some c
             ∧ isOnline c = false ∧ lastSeen c = now')
       ∧ clientConnections
           (clientDisconnect (clientConnect m connection id data now rnds) id now') !! id
         = None
       ∧ gpsPollers
           (clientDisconnect (clientConnect m connection id data now rnds) id now') !! id
         = None
       ∧ ignoreDisconnects
           (clientDisconnect (clientConnect m connection id data now rnds) id now') !! id
         = None)
  ∧ (∀ c, getClient (clientDisconnect m id now) id = Some c →
       (∃ c', getClient (clientDisconnect (clientDisconnect m id now) id now') id = Some c'
              ∧ isOnline c' = false ∧ lastSeen c' = now')
       ∧ clientConnections (clientDisconnect (clientDisconnect m id now) id now') !! id = None
       ∧ gpsPollers (clientDisconnect (clientDisconnect m id now) id now') !! id = None).
Proof.
  destruct (clientConnect_state m connection id data now rnds) as (Hsock & Hflag & c & Hc & Hon & Hls).
  split_and!.
  - exact Hflag.
  - intros Hsome. rewrite bool_decide_true in Hflag by done.
    rewrite (clientDisconnect_suppressed _ _ _ Hflag). simpl.
    split_and!; [done..|]. apply lookup_delete_eq.
  - intros Hnone. rewrite bool_decide_false in Hflag
      by (rewrite Hnone; by intros [? ?]).
    destruct (clientDisconnect_proceeds
                (clientConnect m connection id data now rnds) id now')
      as (H1 & H2 & H3 & H4); [congruence|].
    split_and!; [|done..]. rewrite (H4 c Hc). eauto.
  - intros c0 Hc0.
    destruct (clientDisconnect_proceeds (clientDisconnect m id now) id now')
      as (H1 & H2 & _ & H4).
    { rewrite clientDisconnect_flag_gone. done. }
    split_and!; [|done..]. rewrite (H4 c0 Hc0). eauto.
Qed.

Lemma ignore_flag_contract_witness :
  (∃ c, getClient
          (clientDisconnect (clientConnect newManager 1 "A1" ∅ 10 (fun _ => 0)) "A1" 20) "A1"
        = Some c
        ∧ isOnline c = false ∧ lastSeen c = 20)
  ∧ getClient
      (clientDisconnect
         (clientConnect (run [Connect "A1" 1 ∅ 5 (fun _ => 0)]) 2 "A1" ∅ 10 (fun _ => 0))
         "A1" 20) "A1"
    = getClient
        (clientConnect (run [Connect "A1" 1 ∅ 5 (fun _ => 0)]) 2 "A1" ∅ 10 (fun _ => 0)) "A1".
Proof.
  split.
  - apply (ignore_flag_contract newManager 1 "A1" ∅ 10 (fun _ => 0) 20). reflexivity.
  - apply (ignore_flag_contract (run [Connect "A1" 1 ∅ 5 (fun _ => 0)]) 2 "A1" ∅ 10
             (fun _ => 0) 20).
    vm_compute. eexists. reflexivity.
Defined.

(** The statement of C6 fails for a first connect: the disconnect that
    follows it marks the agent offline. *)
Lemma first_disconnect_marks_offline : ¬ firstDisconnectSuppressed.
Proof.
  intros H. specialize (H newManager 1%nat "A1" ∅ 10 (fun _ => 0) 20).
  vm_compute in H. discriminate H.
Qed.

(** ** The uids of a queue *)

Lemma sendCommand_queue m id commandID payload rnd :
  CommandQue (getClientDatabase (sendCommand m id commandID payload rnd).1 id)
  = CommandQue (getClientDatabase m id)
  ∨ ∃ entry,
      CommandQue (getClientDatabase (sendCommand m id commandID payload rnd).1 id)
      = CommandQue (getClientDatabase m id) ++ [entry]
      ∧ jsget entry "uid" = JInt rnd.
Proof.
  unfold sendCommand, _queueCommand.
  repeat (case_match; simplify_eq/=); try (by left).
  right. eexists. rewrite getClientDatabase_writeDoc. simpl.
  split; [done|]. apply jsget_insert_eq.
Qed.

Lemma sendCommand_other m id id' commandID payload rnd :
  id ≠ id' →
  getClientDatabase (sendCommand m id commandID payload rnd).1 id'
  = getClientDatabase m id'.
Proof.
  intros Hne. unfold sendCommand, _queueCommand.
  repeat (case_match; simplify_eq/=); try done.
  by apply getClientDatabase_writeDoc_ne.
Qed.

(** In a replay the payload is an entry of the queue, so its kind is
    pending: the command is emitted or refused, never queued again. *)
Lemma sendCommand_replayed m id command rnd :
  command ∈ CommandQue (getClientDatabase m id) →
  clientData (sendCommand m id (jsget command "type") command rnd).1 = clientData m.
Proof.
  intros Hin. unfold sendCommand, _queueCommand.
  repeat (case_match; simplify_eq/=); try done.
  exfalso. match goal with H : bool_decide _ = false |- _ =>
    apply bool_decide_eq_false in H; apply H end.
  rewrite jsget_insert_eq. apply list_elem_of_In, in_map_iff.
  exists command. split; [done|]. by apply list_elem_of_In.
Qed.

(** The assignment [commandPayload.type = commandID] of a replay writes
    the kind that the entry has: a validated entry is not changed by it. *)
Lemma replay_type_assignment command :
  _validateCommandParams (jsget command "type") command = None →
  <["type" := jsget command "type"]> command = command.
Proof.
  intros Hval. apply insert_id. unfold jsget in *.
  destruct (command !! "type") as [v|]; [done|]. simpl in Hval. done.
Qed.

Lemma replayTurn_queue id id' rnd k m :
  CommandQue (getClientDatabase (replayTurn id rnd k m).1 id')
    `sublist_of` CommandQue (getClientDatabase m id').
Proof.
  unfold replayTurn.
  destruct (CommandQue (getClientDatabase m id) !! k) as [c|] eqn:Hk; [|done].
  assert (c ∈ CommandQue (getClientDatabase m id)) as Hin
    by (apply list_elem_of_lookup; eauto).
  pose proof (sendCommand_replayed m id c rnd Hin) as Hdata.
  destruct (sendCommand m id (jsget c "type") c rnd) as [m' [msg|err| |]]; simpl in *;
    try (unfold getClientDatabase; by rewrite Hdata).
  unfold removeQueued. destruct (decide (id = id')) as [->|Hne].
  - rewrite getClientDatabase_writeDoc. simpl. unfold getClientDatabase.
    rewrite Hdata. apply sublist_filter.
  - rewrite getClientDatabase_writeDoc_ne by done. unfold getClientDatabase.
    by rewrite Hdata.
Qed.

Lemma clientConnect_queue m connection id data now rnds id' :
  CommandQue (getClientDatabase (clientConnect m connection id data now rnds) id')
    `sublist_of` CommandQue (getClientDatabase m id').
Proof.
  rewrite clientConnect_unfold, getClientDatabase_gpsPollUnless.
  set (m1 := Manager _ _ _ _ _ _). set (m2 := _updateOrCreateClient m1 id data now).
  assert (getClientDatabase m2 id' = getClientDatabase m id') as <-.
  { unfold getClientDatabase, m2.
    by destruct (updateOrCreate_fields m1 id data now) as (_ & _ & _ & ->). }
  apply (processCommandQueue_invariant
           (fun m' => CommandQue (getClientDatabase m' id')
                        `sublist_of` CommandQue (getClientDatabase m2 id'))); [|done].
  intros k m' Hm'. etrans; [apply replayTurn_queue|exact Hm'].
Qed.

Lemma clientDisconnect_clientData m id now :
  clientData (clientDisconnect m id now) = clientData m.
Proof. unfold clientDisconnect. by repeat case_match. Qed.

Lemma run_snoc events e : run (events ++ [e]) = handle (run events) e.
Proof. unfold run. by rewrite fold_left_app. Qed.

(** C9, at two commands that draw the same number. The agent A1 is
    offline; a location command and a contacts command are sent to it and
    both draws are 7. [_queueCommand] compares kinds only, so both entries
    are queued with uid 7. When the agent connects on socket 2, the turn for
    index 0 emits the location command and [remove({ uid })] takes out every
    entry whose uid is 7: the contacts command leaves the queue without
    having been emitted. *)
Theorem equal_uids_drop_a_command :
  CommandQue
    (getClientDatabase
       (run [Connect "A1" 1 ∅ 10 (fun _ => 0); Disconnect "A1" 20;
             Command "A1" (JStr "0xLO") ∅ 7; Command "A1" (JStr "0xCO") ∅ 7])
       "A1")
  = [<["uid" := JInt 7]> {["type" := JStr "0xLO"]};
     <["uid" := JInt 7]> {["type" := JStr "0xCO"]}]
  ∧ queuedUids
      (run [Connect "A1" 1 ∅ 10 (fun _ => 0); Disconnect "A1" 20;
            Command "A1" (JStr "0xLO") ∅ 7; Command "A1" (JStr "0xCO") ∅ 7])
      "A1"
    = [JInt 7; JInt 7]
  ∧ orders
      (run [Connect "A1" 1 ∅ 10 (fun _ => 0); Disconnect "A1" 20;
            Command "A1" (JStr "0xLO") ∅ 7; Command "A1" (JStr "0xCO") ∅ 7;
            Connect "A1" 2 ∅ 30 (fun _ => 0)])
    = [(2%nat, <["uid" := JInt 7]> {["type" := JStr "0xLO"]})]
  ∧ CommandQue
      (getClientDatabase
         (run [Connect "A1" 1 ∅ 10 (fun _ => 0); Disconnect "A1" 20;
               Command "A1" (JStr "0xLO") ∅ 7; Command "A1" (JStr "0xCO") ∅ 7;
               Connect "A1" 2 ∅ 30 (fun _ => 0)])
         "A1")
    = [].
Proof. split_and!; vm_compute; reflexivity. Qed.

(** ** Replay of the queue on connect *)

(** A queue of one entry is replayed in full: for an agent that exists,
    a validated entry is emitted on the new socket and leaves the queue. *)
Lemma replay_single m connection id data now rnds command :
  CommandQue (getClientDatabase m id) = [command] →
  _validateCommandParams (jsget command "type") command = None →
  orders (clientConnect m connection id data now rnds) = orders m ++ [(connection, command)]
  ∧ (is_Some (command !! "uid") →
       CommandQue (getClientDatabase (clientConnect m connection id data now rnds) id) = []).
Proof.
  intros Hq Hval. rewrite clientConnect_unfold.
  set (m1 := Manager _ _ _ _ _ _). set (m2 := _updateOrCreateClient m1 id data now).
  destruct (updateOrCreate_fields m1 id data now) as (Hs & _ & _ & Hd).
  assert (getClientDatabase m2 id = getClientDatabase m id) as Hdb
    by (unfold getClientDatabase, m2; by rewrite Hd).
  assert (∃ ic, findClient m2 id = Some ic) as [ic Hic].
  { apply getClient_findClient.
    destruct (getClient_updateOrCreate m1 id data now) as (c & Hc & _).
    unfold m2. rewrite Hc. eauto. }
  assert (clientConnections m2 !! id = Some connection) as Hsock
    by (unfold m2; rewrite Hs; apply lookup_insert_eq).
  assert (orders m2 = orders m) as Hord
    by (unfold m2, _updateOrCreateClient; by destruct (findClient m1 id) as [[? ?]|]).
  assert (replayQueue m2 id rnds
          = (removeQueued (emitOrder m2 connection command) id (jsget command "uid"),
             false)) as Hrq.
  { unfold replayQueue. rewrite Hdb, Hq.
    rewrite bool_decide_false by done. cbn [length forEachIndex].
    unfold replayTurn. rewrite Hdb, Hq. cbn [lookup list_lookup].
    unfold sendCommand. by rewrite Hval, Hic, Hsock, (replay_type_assignment _ Hval). }
  unfold _processCommandQueue. rewrite Hrq. cbn [fst snd gpsPollUnless].
  split.
  - unfold gpsPoll. case_bool_decide; simpl; by rewrite Hord.
  - intros [u Hu]. rewrite getClientDatabase_gpsPoll. unfold removeQueued.
    rewrite getClientDatabase_writeDoc. simpl.
    change (getClientDatabase (emitOrder m2 connection command) id)
      with (getClientDatabase m2 id).
    rewrite Hdb, Hq, filter_cons, decide_False; [done|].
    intros Hn. apply Hn. unfold matchesProp, jsget. by rewrite Hu.
Qed.

(** A queue of two entries with different uids: only the first is
    emitted, and the second is what the queue holds afterwards. *)
Lemma replay_pair m connection id data now rnds first second :
  CommandQue (getClientDatabase m id) = [first; second] →
  _validateCommandParams (jsget first "type") first = None →
  is_Some (first !! "uid") →
  second !! "uid" ≠ first !! "uid" →
  orders (clientConnect m connection id data now rnds) = orders m ++ [(connection, first)]
  ∧ CommandQue (getClientDatabase (clientConnect m connection id data now rnds) id)
    = [second].
Proof.
  intros Hq Hval [u Hu] Hne. rewrite clientConnect_unfold.
  set (m1 := Manager _ _ _ _ _ _). set (m2 := _updateOrCreateClient m1 id data now).
  destruct (updateOrCreate_fields m1 id data now) as (Hs & _ & _ & Hd).
  assert (getClientDatabase m2 id = getClientDatabase m id) as Hdb
    by (unfold getClientDatabase, m2; by rewrite Hd).
  assert (∃ ic, findClient m2 id = Some ic) as [ic Hic].
  { apply getClient_findClient.
    destruct (getClient_updateOrCreate m1 id data now) as (c & Hc & _).
    unfold m2. rewrite Hc. eauto. }
  assert (clientConnections m2 !! id = Some connection) as Hsock
    by (unfold m2; rewrite Hs; apply lookup_insert_eq).
  assert (orders m2 = orders m) as Hord
    by (unfold m2, _updateOrCreateClient; by destruct (findClient m1 id) as [[? ?]|]).
  assert (replayTurn id (rnds 0%nat) 0 m2
          = (removeQueued (emitOrder m2 connection first) id (jsget first "uid"), false))
    as Hturn.
  { unfold replayTurn. rewrite Hdb, Hq. cbn [lookup list_lookup].
    unfold sendCommand. by rewrite Hval, Hic, Hsock, (replay_type_assignment _ Hval). }
  assert (CommandQue
            (getClientDatabase
               (removeQueued (emitOrder m2 connection first) id (jsget first "uid")) id)
          = [second]) as Hleft.
  { unfold removeQueued. rewrite getClientDatabase_writeDoc. simpl.
    change (getClientDatabase (emitOrder m2 connection first) id)
      with (getClientDatabase m2 id).
    rewrite Hdb, Hq. unfold jsget, matchesProp. rewrite Hu. simpl.
    rewrite filter_cons, decide_False by (intros Hn; by apply Hn).
    rewrite filter_cons, decide_True by (rewrite <- Hu; by intros ?). done. }
  assert (replayTurn id (rnds 1%nat) 1
            (removeQueued (emitOrder m2 connection first) id (jsget first "uid"))
          = (removeQueued (emitOrder m2 connection first) id (jsget first "uid"), false))
    as Hpassed by (unfold replayTurn; by rewrite Hleft).
  unfold _processCommandQueue, replayQueue. rewrite Hdb, Hq.
  rewrite bool_decide_false by done. cbn [length forEachIndex].
  rewrite Hturn, Hpassed. cbn [fst snd gpsPollUnless].
  rewrite getClientDatabase_gpsPoll, Hleft. split; [|done].
  unfold gpsPoll. case_bool_decide; simpl; by rewrite Hord.
Qed.

(** C5, at a queue of two commands. The agent A1 is offline with a
    location and a contacts command queued, in that order, with uids 7 and
    8. When it connects on socket 2 the turn for index 0 emits the first
    and takes it out of the array that the loop runs over; the second is
    then at index 0 and index 1 is empty, so it is neither emitted nor
    removed. *)
Theorem replay_passes_over_second_command :
  CommandQue
    (getClientDatabase
       (run [Connect "A1" 1 ∅ 10 (fun _ => 0); Disconnect "A1" 20;
             Command "A1" (JStr "0xLO") ∅ 7; Command "A1" (JStr "0xCO") ∅ 8])
       "A1")
  = [<["uid" := JInt 7]> {["type" := JStr "0xLO"]};
     <["uid" := JInt 8]> {["type" := JStr "0xCO"]}]
  ∧ orders
      (run [Connect "A1" 1 ∅ 10 (fun _ => 0); Disconnect "A1" 20;
            Command "A1" (JStr "0xLO") ∅ 7; Command "A1" (JStr "0xCO") ∅ 8;
            Connect "A1" 2 ∅ 30 (fun _ => 0)])
    = [(2%nat, <["uid" := JInt 7]> {["type" := JStr "0xLO"]})]
  ∧ CommandQue
      (getClientDatabase
         (run [Connect "A1" 1 ∅ 10 (fun _ => 0); Disconnect "A1" 20;
               Command "A1" (JStr "0xLO") ∅ 7; Command "A1" (JStr "0xCO") ∅ 8;
               Connect "A1" 2 ∅ 30 (fun _ => 0)])
         "A1")
    = [<["uid" := JInt 8]> {["type" := JStr "0xCO"]}].
Proof. split_and!; vm_compute; reflexivity. Qed.

(** ** Snapshots *)

Lemma lodashRemoveAll_nil array : lodashRemoveAll array = [].
Proof.
  unfold lodashRemoveAll. induction array as [|x l IH]; [done|].
  rewrite filter_cons, decide_False by tauto. exact IH.
Qed.

(** The file listing is emptied before it is assigned: a non-empty list
    replaces the former one. *)
Lemma handleFileList_replaces d x l :
  currentFolder (_handleFileList (Some (x :: l)) d) = x :: l.
Proof.
  simpl. rewrite lodashRemoveAll_nil. unfold assignArray.
  by rewrite drop_nil, app_nil_r.
Qed.

(** The app list is assigned over the former one, index by index. *)
Lemma appsHandler_overlays d l :
  apps (appsHandler (Some l) d) = l ++ drop (length l) (apps d).
Proof. done. Qed.

(** C7, at a second list shorter than the first. After the lists [a; b]
    and then [c], the app snapshot is [c; b]: [b], of the first list and
    not of the second, is still there. *)
Theorem apps_second_list_overlays_first :
  apps
    (appsHandler (Some [{["name" := JStr "c"]}])
       (appsHandler (Some [{["name" := JStr "a"]}; {["name" := JStr "b"]}]) emptyDoc))
  = [{["name" := JStr "c"]}; {["name" := JStr "b"]}]
  ∧ {["name" := JStr "b"]}
      ∈ apps
          (appsHandler (Some [{["name" := JStr "c"]}])
             (appsHandler (Some [{["name" := JStr "a"]}; {["name" := JStr "b"]}]) emptyDoc))
  ∧ ¬ ({["name" := JStr "b"]} ∈ [({["name" := JStr "c"]} : obj)]).
Proof.
  split_and!.
  - reflexivity.
  - apply list_elem_of_In. simpl. right. left. reflexivity.
  - intros H%list_elem_of_singleton. vm_compute in H. discriminate H.
Qed.

(** ** Log-append listeners *)













(** The loop of the call and SMS listeners, for any key function. *)
Section Each.

Variable key : obj → string.






End Each.


Section DedupeProperties.

Variable md5 : string → string.
Variable numberText : Z → string.
Variable sumText : Z → Z → string.












End DedupeProperties.



(** The scenario of the design document: three SMS records, the third a
    duplicate of the first, leave two records. *)
Example sms_three_pushed_two_stored :
  length
    (SMSData
       (smsHandler (fun s => s) pretty (fun x y => pretty (x + y))
          (SmsObject
             (Some [<["address" := JStr "+100"]> {["body" := JStr "hi"]};
                    <["address" := JStr "+200"]> {["body" := JStr "hi"]};
                    <["address" := JStr "+100"]> {["body" := JStr "hi"]}]))
          emptyDoc))
  = 2%nat.
Proof. vm_compute. reflexivity. Qed.

(** ** The wifi listener *)

Section WifiProperties.

Variable now : Z.

Lemma sameNetwork_refresh x e : sameNetwork x (refresh now e) ↔ sameNetwork x e.
Proof.
  unfold sameNetwork, matchesProp, refresh. by rewrite !lookup_insert_ne by done.
Qed.

Lemma sameNetwork_stamp x w : sameNetwork x (stamp now w) ↔ sameNetwork x w.
Proof.
  unfold sameNetwork, matchesProp, stamp. by rewrite !lookup_insert_ne by done.
Qed.

Lemma sameNetwork_self x : hasPair x → sameNetwork x x.
Proof.
  intros [[s Hs] [b Hb]]. unfold sameNetwork, matchesProp, jsget.
  by rewrite Hs, Hb.
Qed.

(** Two networks with the same pair find the same entries. *)
Lemma sameNetwork_alike x w e : sameNetwork x w → sameNetwork w e ↔ sameNetwork x e.
Proof.
  unfold sameNetwork, matchesProp, jsget. intros [Hs Hb]. by rewrite Hs, Hb.
Qed.

Lemma refresh_refresh e : refresh now (refresh now e) = refresh now e.
Proof. unfold refresh. apply insert_insert_eq. Qed.

Lemma refresh_stamp w : refresh now (stamp now w) = stamp now w.
Proof. unfold refresh, stamp. apply insert_insert_eq. Qed.

Lemma stamp_seen w :
  jsget (stamp now w) "firstSeen" = JInt now ∧ jsget (stamp now w) "lastSeen" = JInt now.
Proof.
  unfold stamp. split.
  - rewrite jsget_insert_ne by done. apply jsget_insert_eq.
  - apply jsget_insert_eq.
Qed.

Lemma known_find x log :
  knownNetwork x log ↔ is_Some (list_find (sameNetwork x) log).
Proof.
  split.
  - intros (e & Hin & He). by eapply list_find_elem_of.
  - intros [[i e] (Hi & He & _)%list_find_Some]. exists e. split; [|done].
    apply list_elem_of_lookup. eauto.
Qed.

Lemma unknown_find x log :
  ¬ knownNetwork x log ↔ list_find (sameNetwork x) log = None.
Proof. rewrite known_find, eq_None_not_Some. done. Qed.

(** The first entry with the pair of [x] keeps its place through a turn,
    and is at most refreshed by it. *)
Lemma wifiEach_find x st w i e :
  list_find (sameNetwork x) st.1 = Some (i, e) →
  ∃ e', list_find (sameNetwork x) (wifiEach now st w).1 = Some (i, e')
        ∧ (e' = e ∨ e' = refresh now e).
Proof.
  intros Hx. unfold wifiEach.
  destruct (list_find (sameNetwork w) st.1) as [[i0 e0]|] eqn:Hw; simpl.
  - pose proof Hx as (Hi & He & Hleast)%list_find_Some.
    pose proof Hw as (Hi0 & He0 & _)%list_find_Some.
    destruct (decide (i0 = i)) as [->|Hne].
    + assert (e0 = e) as -> by congruence. exists (refresh now e). split; [|by right].
      apply (list_find_update _ _ _ e); [done|]. by apply sameNetwork_refresh.
    + exists e. split; [|by left]. apply list_find_Some. split_and!; [|done|].
      * by rewrite list_lookup_insert_ne.
      * intros j y Hj Hlt. destruct (decide (j = i0)) as [->|Hj0].
        -- rewrite list_lookup_insert_eq in Hj by (by eapply lookup_lt_Some).
           injection Hj as <-. rewrite sameNetwork_refresh. by eapply Hleast.
        -- rewrite list_lookup_insert_ne in Hj by done. by eapply Hleast.
  - exists e. split; [|by left]. by apply list_find_app_l.
Qed.

(** The turn of [x] itself refreshes that entry. *)
Lemma wifiEach_find_self x st i e :
  list_find (sameNetwork x) st.1 = Some (i, e) →
  list_find (sameNetwork x) (wifiEach now st x).1 = Some (i, refresh now e).
Proof.
  intros Hx. unfold wifiEach. rewrite Hx. simpl.
  apply (list_find_update _ _ _ e); [done|]. apply sameNetwork_refresh.
  by apply list_find_Some in Hx as (_ & ? & _).
Qed.

Lemma wifiEach_known x st w :
  knownNetwork x st.1 → knownNetwork x (wifiEach now st w).1.
Proof.
  rewrite !known_find. intros [[i e] Hx].
  destruct (wifiEach_find x st w i e Hx) as (e' & -> & _). eauto.
Qed.

(** An entry of the log keeps its place through a turn, and is at most
    refreshed by it. *)
Lemma wifiEach_lookup st w i e :
  st.1 !! i = Some e →
  (wifiEach now st w).1 !! i = Some e ∨ (wifiEach now st w).1 !! i = Some (refresh now e).
Proof.
  intros Hi. unfold wifiEach.
  destruct (list_find (sameNetwork w) st.1) as [[i0 e0]|] eqn:Hw; simpl.
  - apply list_find_Some in Hw as (Hi0 & _).
    destruct (decide (i0 = i)) as [->|Hne].
    + right. rewrite list_lookup_insert_eq by (by eapply lookup_lt_Some). congruence.
    + left. by rewrite list_lookup_insert_ne.
  - left. by apply lookup_app_l_Some.
Qed.

Lemma wifiEach_length_known st w :
  knownNetwork w st.1 → length (wifiEach now st w).1 = length st.1.
Proof.
  intros [[i e] Hw]%known_find. unfold wifiEach. rewrite Hw. simpl.
  apply length_insert.
Qed.

Lemma wifiEach_length st w : (length st.1 ≤ length (wifiEach now st w).1)%nat.
Proof.
  unfold wifiEach.
  destruct (list_find (sameNetwork w) st.1) as [[i0 e0]|]; simpl.
  - by rewrite length_insert.
  - rewrite length_app. lia.
Qed.

Lemma filter_length_insert {A} (P : A → Prop) `{!∀ x, Decision (P x)}
    (l : list A) i x y :
  l !! i = Some x → (P y ↔ P x) →
  length (filter P (<[i := y]> l)) = length (filter P l).
Proof.
  revert i. induction l as [|z l IH]; intros i Hi Hxy; [done|].
  destruct i as [|i]; simpl in *.
  - injection Hi as ->. rewrite !filter_cons.
    destruct (decide (P x)) as [Hx|Hx].
    + by rewrite decide_True by tauto.
    + by rewrite decide_False by tauto.
  - rewrite !filter_cons. specialize (IH i Hi Hxy).
    destruct (decide (P z)); simpl; by rewrite IH.
Qed.

Lemma networkCount_unknown x log : ¬ knownNetwork x log → networkCount x log = 0%nat.
Proof.
  intros Hn. unfold networkCount. induction log as [|e log IH]; [done|].
  rewrite filter_cons. destruct (decide (sameNetwork x e)) as [He|He].
  - exfalso. apply Hn. exists e. split; [apply list_elem_of_here|done].
  - apply IH. intros (e' & Hin & He'). apply Hn. exists e'.
    split; [by apply list_elem_of_further|done].
Qed.

Lemma networkCount_known x log : knownNetwork x log → (1 ≤ networkCount x log)%nat.
Proof.
  intros (e & Hin & He). unfold networkCount.
  assert (e ∈ filter (sameNetwork x) log) as Hf by (by apply list_elem_of_filter).
  destruct (filter (sameNetwork x) log); [by apply elem_of_nil in Hf|simpl; lia].
Qed.

(** What a turn does to the number of entries with the pair of [x]:
    nothing, or one more when there was none. *)
Lemma wifiEach_count x st w :
  networkCount x (wifiEach now st w).1 = networkCount x st.1
  ∨ (networkCount x st.1 = 0%nat ∧ networkCount x (wifiEach now st w).1 = 1%nat).
Proof.
  unfold wifiEach.
  destruct (list_find (sameNetwork w) st.1) as [[i0 e0]|] eqn:Hw; simpl.
  - left. apply list_find_Some in Hw as (Hi0 & _). unfold networkCount.
    apply (filter_length_insert _ _ _ e0); [done|]. apply sameNetwork_refresh.
  - unfold networkCount. rewrite filter_app, length_app, filter_cons, filter_nil.
    destruct (decide (sameNetwork x (stamp now w))) as [Hx|Hx]; simpl.
    + right. apply (proj1 (sameNetwork_stamp x w)) in Hx.
      assert (networkCount x st.1 = 0%nat) as H0.
      { apply networkCount_unknown. intros (e & Hin & He).
        apply unknown_find in Hw. apply Hw. exists e. split; [done|].
        by apply (sameNetwork_alike x w e). }
      unfold networkCount in H0. rewrite H0. done.
    + left. lia.
Qed.

Lemma wifiEach_count_self x st :
  hasPair x → (1 ≤ networkCount x (wifiEach now st x).1)%nat.
Proof.
  intros Hp. apply networkCount_known. unfold wifiEach.
  destruct (list_find (sameNetwork x) st.1) as [[i0 e0]|] eqn:Hx; simpl.
  - apply known_find. exists (i0, refresh now e0).
    apply (list_find_update _ _ _ e0); [done|]. apply sameNetwork_refresh.
    by apply list_find_Some in Hx as (_ & ? & _).
  - exists (stamp now x). split.
    + apply elem_of_app. right. by apply list_elem_of_singleton.
    + apply sameNetwork_stamp. by apply sameNetwork_self.
Qed.

(** *** The whole loop *)

Lemma wifiLoop_count_le x l st :
  (networkCount x st.1 ≤ 1)%nat →
  (networkCount x st.1 ≤ networkCount x (fold_left (wifiEach now) l st).1 ≤ 1)%nat.
Proof.
  revert st. induction l as [|w l IH]; intros st Hle; simpl; [lia|].
  destruct (wifiEach_count x st w) as [Heq|[H0 H1]].
  - specialize (IH (wifiEach now st w)). rewrite Heq in IH. auto.
  - specialize (IH (wifiEach now st w)). rewrite H1 in IH. lia.
Qed.

Lemma wifiLoop_count x l st :
  x ∈ l → hasPair x → (networkCount x st.1 ≤ 1)%nat →
  networkCount x (fold_left (wifiEach now) l st).1 = 1%nat.
Proof.
  revert st. induction l as [|w l IH]; intros st Hin Hp Hle;
    [by apply elem_of_nil in Hin|].
  simpl. apply elem_of_cons in Hin as [->|Hin].
  - pose proof (wifiEach_count_self w st Hp) as H1.
    assert (networkCount w (wifiEach now st w).1 ≤ 1)%nat as H2
      by (destruct (wifiEach_count w st w) as [Heq|[_ Heq]]; lia).
    pose proof (wifiLoop_count_le w l (wifiEach now st w) H2). lia.
  - apply IH; [done..|].
    destruct (wifiEach_count x st w) as [Heq|[_ Heq]]; lia.
Qed.

Lemma wifiLoop_lookup l st i e :
  st.1 !! i = Some e →
  (fold_left (wifiEach now) l st).1 !! i = Some e
  ∨ (fold_left (wifiEach now) l st).1 !! i = Some (refresh now e).
Proof.
  revert st e. induction l as [|w l IH]; intros st e Hi; simpl; [by left|].
  destruct (wifiEach_lookup st w i e Hi) as [H1|H1].
  - by apply IH.
  - destruct (IH _ _ H1) as [H2|H2]; [by right|].
    right. by rewrite refresh_refresh in H2.
Qed.

Lemma wifiLoop_find x l st i e :
  list_find (sameNetwork x) st.1 = Some (i, e) →
  ∃ e', list_find (sameNetwork x) (fold_left (wifiEach now) l st).1 = Some (i, e')
        ∧ (e' = e ∨ e' = refresh now e).
Proof.
  revert st e. induction l as [|w l IH]; intros st e Hx; simpl; [eauto|].
  destruct (wifiEach_find x st w i e Hx) as (e1 & H1 & He1).
  destruct (IH _ _ H1) as (e2 & H2 & He2). exists e2. split; [done|].
  destruct He1 as [->| ->]; [done|]. rewrite refresh_refresh in He2.
  right. by destruct He2.
Qed.

Lemma wifiLoop_known x l st :
  knownNetwork x st.1 → knownNetwork x (fold_left (wifiEach now) l st).1.
Proof.
  rewrite !known_find. intros [[i e] Hx].
  destruct (wifiLoop_find x l st i e Hx) as (e' & -> & _). eauto.
Qed.

(** A network of the batch whose pair is in the log: the first entry with
    that pair ends up refreshed, at its place. *)
Lemma wifiLoop_refreshed x l st i e :
  x ∈ l → list_find (sameNetwork x) st.1 = Some (i, e) →
  (fold_left (wifiEach now) l st).1 !! i = Some (refresh now e).
Proof.
  revert st e. induction l as [|w l IH]; intros st e Hin Hx;
    [by apply elem_of_nil in Hin|].
  simpl. apply elem_of_cons in Hin as [->|Hin].
  - pose proof (wifiEach_find_self w st i e Hx) as H1.
    destruct (wifiLoop_find w l _ _ _ H1) as (e' & (He' & _)%list_find_Some & Hor).
    rewrite refresh_refresh in Hor. rewrite He'. by destruct Hor as [->| ->].
  - destruct (wifiEach_find x st w i e Hx) as (e1 & H1 & He1).
    rewrite (IH _ _ Hin H1). by destruct He1 as [->| ->]; rewrite ?refresh_refresh.
Qed.

Lemma wifiLoop_length_known l st :
  (∀ x, x ∈ l → knownNetwork x st.1) →
  length (fold_left (wifiEach now) l st).1 = length st.1.
Proof.
  revert st. induction l as [|w l IH]; intros st Hall; [done|].
  simpl. rewrite IH.
  - apply wifiEach_length_known, Hall, list_elem_of_here.
  - intros x Hx. apply wifiEach_known, Hall. by apply list_elem_of_further.
Qed.

(** What the loop puts behind the former entries: stamped networks of the
    batch whose pair was not in the log. *)
Lemma wifiLoop_added l st i e :
  (length st.1 ≤ i)%nat → (fold_left (wifiEach now) l st).1 !! i = Some e →
  ∃ x, x ∈ l ∧ ¬ knownNetwork x st.1 ∧ e = stamp now x.
Proof.
  revert st. induction l as [|w l IH]; intros st Hlen Hi; simpl in Hi.
  - apply lookup_lt_Some in Hi. lia.
  - destruct (decide (length (wifiEach now st w).1 ≤ i)%nat) as [Hle|Hgt].
    + destruct (IH _ Hle Hi) as (x & Hx & Hn & ->). exists x.
      split_and!; [by apply list_elem_of_further| |done].
      intros Hk. by apply Hn, wifiEach_known.
    + destruct (list_find (sameNetwork w) st.1) as [[i0 e0]|] eqn:Hw.
      * rewrite wifiEach_length_known in Hgt by (apply known_find; eauto). lia.
      * assert (wifiEach now st w = (st.1 ++ [stamp now w], st.2 ++ [stamp now w]))
          as Hturn by (unfold wifiEach; by rewrite Hw).
        rewrite Hturn in Hi, Hgt. simpl in Hgt. rewrite length_app in Hgt.
        simpl in Hgt.
        assert (i = length st.1) as -> by lia.
        assert ((st.1 ++ [stamp now w]) !! length st.1 = Some (stamp now w)) as Hs
          by (by rewrite lookup_app_r, Nat.sub_diag by lia).
        destruct (wifiLoop_lookup l (st.1 ++ [stamp now w], st.2 ++ [stamp now w])
                    _ _ Hs) as [H1|H1];
          rewrite ?refresh_stamp in H1; rewrite H1 in Hi; injection Hi as <-;
          (exists w; split_and!; [apply list_elem_of_here|by apply unknown_find|done]).
Qed.

(** The incoming objects as the loop leaves them: each as it came or
    stamped, and as it came when its pair was in the log. *)
Lemma wifiLoop_snapshot l st :
  ∃ seen, (fold_left (wifiEach now) l st).2 = st.2 ++ seen
          ∧ Forall2 (fun x y => y = x ∨ (y = stamp now x ∧ ¬ knownNetwork x st.1)) l seen.
Proof.
  revert st. induction l as [|w l IH]; intros st; simpl.
  - exists []. by rewrite app_nil_r.
  - destruct (IH (wifiEach now st w)) as (seen & -> & Hall).
    assert (∀ x y, (y = x ∨ y = stamp now x ∧ ¬ knownNetwork x (wifiEach now st w).1)
                   → y = x ∨ y = stamp now x ∧ ¬ knownNetwork x st.1) as Hweak.
    { intros x y [->|[-> Hn]]; [by left|]. right. split; [done|].
      intros Hk. by apply Hn, wifiEach_known. }
    unfold wifiEach at 1.
    destruct (list_find (sameNetwork w) st.1) as [[i0 e0]|] eqn:Hw; simpl.
    + exists (w :: seen). rewrite <- app_assoc. split; [done|].
      constructor; [by left|]. eapply Forall2_impl; [exact Hall|]. apply Hweak.
    + exists (stamp now w :: seen). rewrite <- app_assoc. split; [done|].
      constructor; [right; split; [done|by apply unknown_find]|].
      eapply Forall2_impl; [exact Hall|]. apply Hweak.
Qed.

End WifiProperties.

Lemma wifiHandler_log now d w l :
  wifiLog (wifiHandler (Some (w :: l)) now d)
  = (fold_left (wifiEach now) (w :: l) (wifiLog d, [])).1.
Proof. done. Qed.

Lemma wifiHandler_snapshot now d w l :
  wifiNow (wifiHandler (Some (w :: l)) now d)
  = (fold_left (wifiEach now) (w :: l) (wifiLog d, [])).2.
Proof.
  cbv [wifiHandler withWifi wifiNow]. rewrite lodashRemoveAll_nil.
  unfold assignArray. by rewrite drop_nil, app_nil_r.
Qed.

(** C4. For a non-empty list of networks:
    - a network of the list whose pair is in the log has the first entry
      with that pair refreshed ([lastSeen] is the time of the ingestion) at
      its place; the former entries keep their places and are otherwise
      untouched, and when every network of the list is known the log keeps
      its length;
    - whatever is put behind the former entries is a network of the list
      whose pair was not in the log, stamped with [firstSeen] and
      [lastSeen] at the time of the ingestion; a network with both
      properties of the pair, not in the log, gets such an entry, and the
      log then holds exactly one entry with its pair (once at most before,
      exactly once after);
    - the snapshot holds, in order, the incoming objects, as they came or
      with the stamps they received when they were put in the log; nothing
      of the former snapshot is left. *)
Theorem wifi_upsert (d : clientDoc) (now : Z) (w : obj) (l : list obj) :
  (∀ x i e, x ∈ w :: l → list_find (sameNetwork x) (wifiLog d) = Some (i, e) →
     wifiLog (wifiHandler (Some (w :: l)) now d) !! i = Some (refresh now e)
     ∧ jsget (refresh now e) "lastSeen" = JInt now)
  ∧ (∀ i e, wifiLog d !! i = Some e →
       wifiLog (wifiHandler (Some (w :: l)) now d) !! i = Some e
       ∨ wifiLog (wifiHandler (Some (w :: l)) now d) !! i = Some (refresh now e))
  ∧ ((∀ x, x ∈ w :: l → knownNetwork x (wifiLog d)) →
       length (wifiLog (wifiHandler (Some (w :: l)) now d)) = length (wifiLog d))
  ∧ (∀ i e, (length (wifiLog d) ≤ i)%nat →
       wifiLog (wifiHandler (Some (w :: l)) now d) !! i = Some e →
       ∃ x, x ∈ w :: l ∧ ¬ knownNetwork x (wifiLog d) ∧ e = stamp now x
            ∧ jsget e "firstSeen" = JInt now ∧ jsget e "lastSeen" = JInt now)
  ∧ (∀ x, x ∈ w :: l → hasPair x → (networkCount x (wifiLog d) ≤ 1)%nat →
       networkCount x (wifiLog (wifiHandler (Some (w :: l)) now d)) = 1%nat)
  ∧ (∀ x, x ∈ w :: l → hasPair x → ¬ knownNetwork x (wifiLog d) →
       ∃ i e, (length (wifiLog d) ≤ i)%nat
              ∧ wifiLog (wifiHandler (Some (w :: l)) now d) !! i = Some e
              ∧ sameNetwork x e
              ∧ jsget e "firstSeen" = JInt now ∧ jsget e "lastSeen" = JInt now)
  ∧ Forall2 (fun x y => y = x ∨ (y = stamp now x ∧ ¬ knownNetwork x (wifiLog d)))
      (w :: l) (wifiNow (wifiHandler (Some (w :: l)) now d)).
Proof.
  rewrite wifiHandler_log, wifiHandler_snapshot.
  set (st := (wifiLog d, []) : list obj * list obj).
  change (wifiLog d) with st.1.
  assert (∀ i e, (length st.1 ≤ i)%nat →
            (fold_left (wifiEach now) (w :: l) st).1 !! i = Some e →
            ∃ x, x ∈ w :: l ∧ ¬ knownNetwork x st.1 ∧ e = stamp now x
                 ∧ jsget e "firstSeen" = JInt now ∧ jsget e "lastSeen" = JInt now)
    as Hadded.
  { intros i e Hle Hi.
    destruct (wifiLoop_added now (w :: l) st i e Hle Hi) as (x & Hx & Hn & ->).
    exists x. split_and!; [done..| |]; apply stamp_seen. }
  split_and!.
  - intros x i e Hx Hf.
    split; [by apply (wifiLoop_refreshed now x)|apply jsget_insert_eq].
  - intros i e Hi. by apply wifiLoop_lookup.
  - intros Hall. by apply wifiLoop_length_known.
  - exact Hadded.
  - intros x Hx Hp Hle. by apply wifiLoop_count.
  - intros x Hx Hp Hn.
    assert (networkCount x (fold_left (wifiEach now) (w :: l) st).1 = 1%nat) as Hc.
    { apply wifiLoop_count; [done..|]. rewrite networkCount_unknown by done. lia. }
    assert (knownNetwork x (fold_left (wifiEach now) (w :: l) st).1)
      as (e & (i & Hi)%list_elem_of_lookup & He).
    { apply known_find.
      destruct (list_find (sameNetwork x) (fold_left (wifiEach now) (w :: l) st).1)
        as [ie|] eqn:Hf; [eauto|].
      apply unknown_find, (networkCount_unknown x) in Hf. lia. }
    destruct (decide (length st.1 ≤ i)%nat) as [Hle|Hgt].
    + destruct (Hadded i e Hle Hi) as (x0 & _ & _ & _ & Hfs & Hls).
      exists i, e. done.
    + exfalso. apply Hn.
      destruct (lookup_lt_is_Some_2 st.1 i) as [e0 He0]; [lia|].
      exists e0. split; [apply list_elem_of_lookup; eauto|].
      destruct (wifiLoop_lookup now (w :: l) st i e0 He0) as [H1|H1];
        rewrite H1 in Hi; injection Hi as <-; [done|].
      by apply (sameNetwork_refresh now).
  - destruct (wifiLoop_snapshot now (w :: l) st) as (seen & -> & Hall). done.
Qed.

Lemma wifi_upsert_witness :
  wifiLog
    (wifiHandler (Some [<["SSID" := JStr "home"]> {["BSSID" := JStr "aa:01"]}]) 200
       (wifiHandler (Some [<["SSID" := JStr "home"]> {["BSSID" := JStr "aa:01"]}]) 100
          emptyDoc))
    !! 0%nat
  = Some (refresh 200 (stamp 100 (<["SSID" := JStr "home"]> {["BSSID" := JStr "aa:01"]})))
  ∧ length
      (wifiLog
         (wifiHandler (Some [<["SSID" := JStr "home"]> {["BSSID" := JStr "aa:01"]}]) 200
            (wifiHandler (Some [<["SSID" := JStr "home"]> {["BSSID" := JStr "aa:01"]}]) 100
               emptyDoc)))
    = 1%nat
  ∧ networkCount (<["SSID" := JStr "cafe"]> {["BSSID" := JStr "bb:02"]})
      (wifiLog
         (wifiHandler
            (Some [<["SSID" := JStr "cafe"]> {["BSSID" := JStr "bb:02"]};
                   <["SSID" := JStr "cafe"]> {["BSSID" := JStr "bb:02"]}]) 200
            (wifiHandler (Some [<["SSID" := JStr "home"]> {["BSSID" := JStr "aa:01"]}]) 100
               emptyDoc)))
    = 1%nat.
Proof.
  destruct (wifi_upsert
              (wifiHandler (Some [<["SSID" := JStr "home"]> {["BSSID" := JStr "aa:01"]}])
                 100 emptyDoc)
              200 (<["SSID" := JStr "home"]> {["BSSID" := JStr "aa:01"]}) [])
    as (Hknown & _ & Hlength & _).
  destruct (wifi_upsert
              (wifiHandler (Some [<["SSID" := JStr "home"]> {["BSSID" := JStr "aa:01"]}])
                 100 emptyDoc)
              200 (<["SSID" := JStr "cafe"]> {["BSSID" := JStr "bb:02"]})
              [<["SSID" := JStr "cafe"]> {["BSSID" := JStr "bb:02"]}])
    as (_ & _ & _ & _ & Hcount & _).
  split_and!.
  - apply (Hknown (<["SSID" := JStr "home"]> {["BSSID" := JStr "aa:01"]})).
    + apply list_elem_of_here.
    + vm_compute. reflexivity.
  - apply Hlength.
    intros x Hx%list_elem_of_singleton. subst x.
    exists (stamp 100 (<["SSID" := JStr "home"]> {["BSSID" := JStr "aa:01"]})).
    split; [apply list_elem_of_here|]. vm_compute. split; reflexivity.
  - apply Hcount.
    + apply list_elem_of_here.
    + vm_compute. split; eexists; reflexivity.
    + vm_compute. lia.
Defined.

(** * Further properties of the manager *)

(** ** The command catalogue *)

Lemma messageKey_cases c :
  c ∈ messageKeys.values ↔
  c = "0xCA" ∨ c = "0xFI" ∨ c = "0xCL" ∨ c = "0xSM" ∨ c = "0xMI" ∨ c = "0xLO"
  ∨ c = "0xCO" ∨ c = "0xWI" ∨ c = "0xNO" ∨ c = "0xCB" ∨ c = "0xIN" ∨ c = "0xPM"
  ∨ c = "0xGP".
Proof.
  rewrite list_elem_of_In. simpl.
  unfold messageKeys.camera, messageKeys.files, messageKeys.call, messageKeys.sms,
    messageKeys.mic, messageKeys.location, messageKeys.contacts, messageKeys.wifi,
    messageKeys.notification, messageKeys.clipboard, messageKeys.installed,
    messageKeys.permissions, messageKeys.gotPermission.
  intuition congruence.
Qed.

Lemma inheritedValidator_key c : c ∈ messageKeys.values → inheritedValidator c = None.
Proof.
  intros Hc%messageKey_cases.
  repeat (destruct Hc as [->|Hc]; [by vm_compute|]). subst c. by vm_compute.
Qed.

Lemma inheritedValidator_cases c :
  (c = "constructor" ∧ inheritedValidator c = Some AnswersObject)
  ∨ (c = "toString" ∧ inheritedValidator c = Some (Answers (Some "[object Undefined]")))
  ∨ (c = "isPrototypeOf" ∧ inheritedValidator c = Some (Answers None))
  ∨ (c ∈ raisingMembers ∧ inheritedValidator c = Some Throws)
  ∨ (c ≠ "constructor" ∧ c ≠ "toString" ∧ c ≠ "isPrototypeOf" ∧ ¬ (c ∈ raisingMembers)
     ∧ inheritedValidator c = None).
Proof.
  unfold inheritedValidator, raisingMembers.
  repeat case_bool_decide; naive_solver.
Qed.

Lemma raisingMembers_other c :
  c ∈ raisingMembers → c ≠ "constructor" ∧ c ≠ "toString" ∧ c ≠ "isPrototypeOf"
                       ∧ ¬ (c ∈ messageKeys.values).
Proof.
  intros Hc. split_and!; try (intros ->; vm_compute in Hc;
    repeat (apply elem_of_cons in Hc as [Hc|Hc]; [discriminate Hc|]);
    by apply elem_of_nil in Hc).
  intros Hk. apply inheritedValidator_key in Hk.
  unfold inheritedValidator in Hk. fold raisingMembers in Hk.
  repeat case_bool_decide; done.
Qed.

(** A command id that has no validator of its own. *)
Lemma validate_other c payload :
  c ≠ "0xSM" → c ≠ "0xFI" → c ≠ "0xMI" → c ≠ "0xGP" →
  _validateCommandParams (JStr c) payload
  = match inheritedValidator c with
    | Some answer => answer
    | None =>
        if bool_decide (c ∈ messageKeys.values) then Answers None
        else Answers (Some "Command ID Not Found")
    end.
Proof.
  intros. unfold _validateCommandParams, messageKeys.sms, messageKeys.files,
    messageKeys.mic, messageKeys.gotPermission.
  by rewrite !bool_decide_false by done.
Qed.

Lemma validate_mic payload :
  _validateCommandParams (JStr "0xMI") payload
  = Answers (if negb (jsin "sec" payload) then Some "Mic Missing `sec` Parameter" else None).
Proof. unfold _validateCommandParams. simpl. by destruct (jsin "sec" payload). Qed.

Lemma validate_gotPermission payload :
  _validateCommandParams (JStr "0xGP") payload
  = Answers (if negb (jsin "permission" payload)
             then Some "GotPerm Missing `permission` Parameter" else None).
Proof. unfold _validateCommandParams. simpl. by destruct (jsin "permission" payload). Qed.

(** A command id with a validator of its own, or none at all, is answered
    with [false] or a text. *)
Lemma validate_answers commandID payload :
  (∀ c, commandID = JStr c → inheritedValidator c = None) →
  ∃ error : option string, _validateCommandParams commandID payload = error.
Proof.
  intros Hc. destruct commandID as [| | | | |c]; try (by eexists).
  specialize (Hc c eq_refl).
  destruct (decide (c = "0xSM")) as [->|?]; [rewrite validate_sms; eauto|].
  destruct (decide (c = "0xFI")) as [->|?]; [rewrite validate_files; eauto|].
  destruct (decide (c = "0xMI")) as [->|?]; [rewrite validate_mic; eauto|].
  destruct (decide (c = "0xGP")) as [->|?]; [rewrite validate_gotPermission; eauto|].
  rewrite validate_other, Hc by done. case_bool_decide; eauto.
Qed.

Lemma Answers_inj (a b : option string) : Answers a = Answers b ↔ a = b.
Proof. split; [by intros [= ->]|by intros ->]. Qed.

Lemma validation_passes commandID payload :
  _validateCommandParams commandID payload = None ↔
  commandID = JStr "isPrototypeOf"
  ∨ ∃ c, commandID = JStr c ∧ c ∈ messageKeys.values
         ∧ (c = "0xSM" → ¬ smsRuleBroken payload)
         ∧ (c = "0xFI" → ¬ filesRuleBroken payload)
         ∧ (c = "0xMI" → is_Some (payload !! "sec"))
         ∧ (c = "0xGP" → is_Some (payload !! "permission")).
Proof.
  destruct commandID as [| | | | |c];
    try (split; [done|]; by intros [[=]|(c' & [=] & _)]).
  destruct (decide (c = "0xSM")) as [->|Hsms].
  { rewrite validate_sms, Answers_inj, validateSms_passes. split.
    - intros Hn. right. exists "0xSM". split_and!; try done.
      apply messageKey_cases. tauto.
    - intros [[=]|(c & [= <-] & _ & H & _)]. by apply H. }
  destruct (decide (c = "0xFI")) as [->|Hfiles].
  { rewrite validate_files, Answers_inj, validateFiles_passes. split.
    - intros Hn. right. exists "0xFI". split_and!; try done.
      apply messageKey_cases. tauto.
    - intros [[=]|(c & [= <-] & _ & _ & H & _)]. by apply H. }
  destruct (decide (c = "0xMI")) as [->|Hmic].
  { rewrite validate_mic, Answers_inj. case_jsin "sec" payload; split; try done.
    - intros _. right. exists "0xMI". split_and!; try done.
      apply messageKey_cases. tauto.
    - intros [[=]|(c & [= <-] & _ & _ & _ & H & _)]. destruct H as [v Hv]; [done|].
      congruence. }
  destruct (decide (c = "0xGP")) as [->|Hgp].
  { rewrite validate_gotPermission, Answers_inj.
    case_jsin "permission" payload; split; try done.
    - intros _. right. exists "0xGP". split_and!; try done.
      apply messageKey_cases. tauto.
    - intros [[=]|(c & [= <-] & _ & _ & _ & _ & H)]. destruct H as [v Hv]; [done|].
      congruence. }
  rewrite validate_other by done.
  destruct (inheritedValidator_cases c)
    as [[-> ->]|[[-> ->]|[[-> ->]|[[Hc ->]|(H1 & H2 & H3 & H4 & ->)]]]].
  - split; [done|]. intros [[=]|(c & [= <-] & Hk%inheritedValidator_key & _)].
    by vm_compute in Hk.
  - split; [done|]. intros [[=]|(c & [= <-] & Hk%inheritedValidator_key & _)].
    by vm_compute in Hk.
  - split; [by left|done].
  - split; [done|]. intros [[= ->]|(c' & [= <-] & Hk & _)].
    + by apply raisingMembers_other in Hc as (_ & _ & ? & _).
    + by apply raisingMembers_other in Hc as (_ & _ & _ & ?).
  - case_bool_decide as Hin; split; try done.
    + intros _. right. exists c. split_and!; done.
    + intros [[= ->]|(c' & [= <-] & Hk & _)]; done.
Qed.

Lemma validation_throws commandID payload :
  _validateCommandParams commandID payload = Throws ↔
  ∃ c, commandID = JStr c ∧ c ∈ raisingMembers.
Proof.
  split.
  - intros Hv. destruct commandID as [| | | | |c]; try done. exists c. split; [done|].
    destruct (inheritedValidator_cases c)
      as [[-> Hi]|[[-> Hi]|[[-> Hi]|[[Hc Hi]|(_ & _ & _ & _ & Hi)]]]];
      try (by vm_compute in Hv).
    destruct (validate_answers (JStr c) payload) as [e He]; [by intros ? [= <-]|].
    congruence.
  - intros (c & -> & Hc). pose proof (raisingMembers_other c Hc) as (_ & _ & _ & Hk).
    rewrite validate_other.
    + destruct (inheritedValidator_cases c)
        as [[-> Hi]|[[-> Hi]|[[-> Hi]|[[_ ->]|(_ & _ & _ & Hn & _)]]]];
        try done; by apply raisingMembers_other in Hc as (? & ? & ? & _).
    + intros ->. apply Hk, messageKey_cases. tauto.
    + intros ->. apply Hk, messageKey_cases. tauto.
    + intros ->. apply Hk, messageKey_cases. tauto.
    + intros ->. apply Hk, messageKey_cases. tauto.
Qed.

Lemma validation_object commandID payload :
  _validateCommandParams commandID payload = AnswersObject ↔
  commandID = JStr "constructor".
Proof.
  split; [|by intros ->].
  intros Hv. destruct commandID as [| | | | |c]; try done.
  destruct (inheritedValidator_cases c)
    as [[-> Hi]|[[-> Hi]|[[-> Hi]|[[Hc Hi]|(_ & _ & _ & _ & Hi)]]]];
    try (by vm_compute in Hv).
  - rewrite (proj2 (validation_throws (JStr c) payload)) in Hv by eauto. done.
  - destruct (validate_answers (JStr c) payload) as [e He]; [by intros ? [= <-]|].
    congruence.
Qed.

(** Which commands pass validation: the thirteen kinds of the catalogue,
    with the rules for sms and files, [sec] for the microphone and
    [permission] for the permission acknowledgement, and [isPrototypeOf],
    which the lookup finds in [Object.prototype]. Which commands end the
    validation with a TypeError: the nine other functions and the accessor
    that the lookup finds there. [constructor] is answered with an object
    as the error and [toString] with a text; every other command id, and
    every id that is not a string, is answered with an error text. *)
Theorem validation_catalogue (commandID : jsval) (payload : obj) :
  (_validateCommandParams commandID payload = None ↔
     commandID = JStr "isPrototypeOf"
     ∨ ∃ c, commandID = JStr c ∧ c ∈ messageKeys.values
            ∧ (c = "0xSM" → ¬ smsRuleBroken payload)
            ∧ (c = "0xFI" → ¬ filesRuleBroken payload)
            ∧ (c = "0xMI" → is_Some (payload !! "sec"))
            ∧ (c = "0xGP" → is_Some (payload !! "permission")))
  ∧ (_validateCommandParams commandID payload = Throws ↔
       ∃ c, commandID = JStr c ∧ c ∈ raisingMembers)
  ∧ (_validateCommandParams commandID payload = AnswersObject ↔
       commandID = JStr "constructor")
  ∧ (commandID = JStr "toString" →
       _validateCommandParams commandID payload = Some "[object Undefined]")
  ∧ ((∀ c, commandID = JStr c →
          ¬ (c ∈ messageKeys.values) ∧ ¬ (c ∈ raisingMembers)
          ∧ c ≠ "isPrototypeOf" ∧ c ≠ "constructor") →
       ∃ error : string, _validateCommandParams commandID payload = Some error).
Proof.
  split_and!.
  - apply validation_passes.
  - apply validation_throws.
  - apply validation_object.
  - by intros ->.
  - intros Hc.
    destruct (_validateCommandParams commandID payload) as [[e|]| |] eqn:Hv; [eauto|..].
    + apply validation_passes in Hv as [->|(c & -> & Hk & _)].
      * by destruct (Hc _ eq_refl) as (_ & _ & ? & _).
      * by destruct (Hc _ eq_refl) as (? & _).
    + apply validation_object in Hv as ->.
      by destruct (Hc _ eq_refl) as (_ & _ & _ & ?).
    + apply validation_throws in Hv as (c & -> & Hr).
      by destruct (Hc _ eq_refl) as (_ & ? & _).
Qed.

Lemma validation_catalogue_witness :
  _validateCommandParams (JStr "0xMI") {[ "sec" := JInt 10 ]} = None
  ∧ _validateCommandParams (JStr "isPrototypeOf") ∅ = None
  ∧ _validateCommandParams (JStr "hasOwnProperty") ∅ = Throws
  ∧ ∃ error : string, _validateCommandParams (JInt 5) ∅ = Some error.
Proof.
  split_and!.
  - apply (validation_catalogue (JStr "0xMI") {[ "sec" := JInt 10 ]}).
    right. exists "0xMI". split_and!; try discriminate.
    + reflexivity.
    + apply list_elem_of_In. vm_compute. tauto.
    + intros _. vm_compute. eexists. reflexivity.
  - apply (validation_catalogue (JStr "isPrototypeOf") ∅). by left.
  - apply (validation_catalogue (JStr "hasOwnProperty") ∅).
    exists "hasOwnProperty". split; [reflexivity|]. apply list_elem_of_In.
    vm_compute. tauto.
  - apply (validation_catalogue (JInt 5) ∅). intros c. discriminate.
Defined.

(** The fields that [sendCommand] and [_queueCommand] add to a payload are
    not looked at by the validators. *)
Lemma validation_ignores_type_uid commandID payload t u :
  _validateCommandParams commandID (<["uid" := u]> (<["type" := t]> payload))
  = _validateCommandParams commandID payload.
Proof.
  unfold _validateCommandParams, _validateSmsCommand, _validateFilesCommand, jsin, jsget.
  by rewrite !lookup_insert_ne by done.
Qed.

(** The ways a command can end. *)
Lemma sendCommand_cases m id commandID payload rnd :
  (∃ r, sendCommand m id commandID payload rnd = (m, r) ∧ ∀ message, r ≠ Done message)
  ∨ (∃ socket, clientConnections m !! id = Some socket
        ∧ _validateCommandParams commandID payload = None
        ∧ sendCommand m id commandID payload rnd
          = (emitOrder m socket (<["type" := commandID]> payload), Done "Requested"))
  ∨ (clientConnections m !! id = None
     ∧ _validateCommandParams commandID payload = None
     ∧ ¬ (commandID ∈ pendingTypes m id)
     ∧ sendCommand m id commandID payload rnd
       = (writeDoc m id
            (withCommandQue
               (CommandQue (getClientDatabase m id)
                  ++ [<["uid" := JInt rnd]> (<["type" := commandID]> payload)])
               (getClientDatabase m id)),
          Done "Command queued (device is offline)")).
Proof.
  unfold sendCommand.
  destruct (_validateCommandParams commandID payload) as [[e|]| |] eqn:Hval;
    [left; by eexists..| | |]; try (left; by eexists).
  destruct (findClient m id) as [ic|]; [|left; by eexists].
  destruct (clientConnections m !! id) as [socket|] eqn:Hsock.
  - right. left. eauto.
  - unfold _queueCommand. rewrite jsget_insert_eq. fold (pendingTypes m id).
    case_bool_decide; [left; by eexists|]. right. right. done.
Qed.

Lemma sendCommand_queue_change m id commandID payload rnd :
  CommandQue (getClientDatabase (sendCommand m id commandID payload rnd).1 id)
  = CommandQue (getClientDatabase m id)
  ∨ (_validateCommandParams commandID payload = None
     ∧ ¬ (commandID ∈ pendingTypes m id)
     ∧ CommandQue (getClientDatabase (sendCommand m id commandID payload rnd).1 id)
       = CommandQue (getClientDatabase m id)
           ++ [<["uid" := JInt rnd]> (<["type" := commandID]> payload)]).
Proof.
  destruct (sendCommand_cases m id commandID payload rnd)
    as [(r & -> & _)|[(socket & _ & _ & ->)|(_ & Hval & Hnew & ->)]]; simpl.
  - by left.
  - by left.
  - right. by rewrite getClientDatabase_writeDoc.
Qed.

Lemma sendCommand_reply m id commandID payload rnd :
  ((sendCommand m id commandID payload rnd).2 = Thrown
   ↔ _validateCommandParams commandID payload = Throws)
  ∧ ((sendCommand m id commandID payload rnd).2 = FailedObject
     ↔ _validateCommandParams commandID payload = AnswersObject).
Proof.
  unfold sendCommand, _queueCommand.
  destruct (_validateCommandParams commandID payload) as [[e|]| |]; simpl;
    try (split; split; done).
  repeat case_match; simpl; split; split; done.
Qed.

(** How a command can end, in what can be observed. Whenever the answer is
    not a success the manager is as it was: an error text, an object as the
    error (for [constructor] only), or a TypeError without any answer (for
    the nine members of [Object.prototype] whose call raises one, and only
    for them). "Requested" means one order was emitted on the socket of the
    agent, the payload with its type, and no document changed; "queued"
    means the agent had no socket, nothing was emitted, and the queue of the
    agent received one entry. A command never changes a client record, a
    socket, a flag or a timer, and a command for an agent without a record
    never succeeds. *)
Theorem command_outcomes (m : ClientManager) (id : string) (commandID : jsval)
    (payload : obj) (rnd : Z) :
  ((∀ message, (sendCommand m id commandID payload rnd).2 ≠ Done message) →
     (sendCommand m id commandID payload rnd).1 = m)
  ∧ (∀ message, (sendCommand m id commandID payload rnd).2 = Done message →
       (∃ socket, clientConnections m !! id = Some socket
           ∧ message = "Requested"
           ∧ orders (sendCommand m id commandID payload rnd).1
             = orders m ++ [(socket, <["type" := commandID]> payload)]
           ∧ clientData (sendCommand m id commandID payload rnd).1 = clientData m)
       ∨ (clientConnections m !! id = None
          ∧ message = "Command queued (device is offline)"
          ∧ orders (sendCommand m id commandID payload rnd).1 = orders m
          ∧ CommandQue (getClientDatabase (sendCommand m id commandID payload rnd).1 id)
            = CommandQue (getClientDatabase m id)
                ++ [<["uid" := JInt rnd]> (<["type" := commandID]> payload)]
          ∧ ∀ id', id ≠ id' →
              getClientDatabase (sendCommand m id commandID payload rnd).1 id'
              = getClientDatabase m id'))
  ∧ ((sendCommand m id commandID payload rnd).2 = Thrown
     ↔ ∃ c, commandID = JStr c ∧ c ∈ raisingMembers)
  ∧ ((sendCommand m id commandID payload rnd).2 = FailedObject
     ↔ commandID = JStr "constructor")
  ∧ (getClient m id = None →
       ∀ message, (sendCommand m id commandID payload rnd).2 ≠ Done message)
  ∧ sameSessions m (sendCommand m id commandID payload rnd).1.
Proof.
  split_and!.
  - destruct (sendCommand_cases m id commandID payload rnd)
      as [(r & -> & _)|[(socket & _ & _ & ->)|(_ & _ & _ & ->)]]; simpl; [done|..];
      intros H; by edestruct H.
  - intros message.
    destruct (sendCommand_cases m id commandID payload rnd)
      as [(r & -> & Hr)|[(socket & Hs & _ & ->)|(Hs & _ & _ & ->)]]; simpl.
    + intros ->. by edestruct Hr.
    + intros [= <-]. left. exists socket. done.
    + intros [= <-]. right. split_and!; try done.
      * by rewrite getClientDatabase_writeDoc.
      * intros id' Hne. by apply getClientDatabase_writeDoc_ne.
  - rewrite <- validation_throws. apply sendCommand_reply.
  - rewrite <- validation_object. apply sendCommand_reply.
  - intros Hnone message. unfold sendCommand.
    destruct (_validateCommandParams commandID payload) as [[e|]| |]; try done.
    unfold getClient in Hnone. destruct (findClient m id) as [ic|]; done.
  - apply sendCommand_sessions.
Qed.

Lemma command_outcomes_witness :
  (sendCommand newManager "A1" (JStr "0xLO") ∅ 7).1 = newManager
  ∧ (sendCommand (run [Connect "A1" 1 ∅ 10 (fun _ => 0)]) "A1" (JStr "valueOf") ∅ 7).1
    = run [Connect "A1" 1 ∅ 10 (fun _ => 0)].
Proof.
  split.
  - apply (command_outcomes newManager "A1" (JStr "0xLO") ∅ 7).
    intros message. by vm_compute.
  - apply (command_outcomes (run [Connect "A1" 1 ∅ 10 (fun _ => 0)]) "A1"
             (JStr "valueOf") ∅ 7).
    intros message. by vm_compute.
Defined.

(** ** Invariants of the histories *)

Lemma run_invariant (P : ClientManager → Prop) :
  P newManager → (∀ m e, P m → P (handle m e)) → ∀ events, P (run events).
Proof.
  intros H0 Hstep events. induction events as [|e events IH] using rev_ind; [done|].
  rewrite run_snoc. by apply Hstep.
Qed.

Lemma handle_queue m e id :
  CommandQue (getClientDatabase (handle m e) id)
    `sublist_of` CommandQue (getClientDatabase m id)
  ∨ ∃ id' commandID payload rnd,
      e = Command id' commandID payload rnd ∧ id' = id
      ∧ _validateCommandParams commandID payload = None
      ∧ ¬ (commandID ∈ pendingTypes m id)
      ∧ CommandQue (getClientDatabase (handle m e) id)
        = CommandQue (getClientDatabase m id)
            ++ [<["uid" := JInt rnd]> (<["type" := commandID]> payload)].
Proof.
  destruct e as [id' connection data now rnds|id' now|id' commandID payload rnd]; simpl.
  - left. apply clientConnect_queue.
  - left. unfold getClientDatabase. by rewrite clientDisconnect_clientData.
  - destruct (decide (id' = id)) as [->|Hne].
    + destruct (sendCommand_queue_change m id commandID payload rnd)
        as [->|(Hval & Hnew & Hq)]; [by left|].
      right. exists id, commandID, payload, rnd. done.
    + left. by rewrite sendCommand_other.
Qed.

(** At most one pending entry per kind: in every state that connects,
    disconnects and commands lead to, the kinds pending for an agent are
    pairwise different. *)
Theorem one_pending_per_kind (events : list event) (id : string) :
  NoDup (pendingTypes (run events) id).
Proof.
  apply (run_invariant (fun m => NoDup (pendingTypes m id))).
  - unfold pendingTypes, getClientDatabase. simpl. constructor.
  - intros m e IH. unfold pendingTypes in *.
    destruct (handle_queue m e id)
      as [Hsub|(id' & commandID & payload & rnd & _ & _ & _ & Hnew & ->)].
    + eapply sublist_NoDup; [exact IH|]. by apply fmap_sublist.
    + rewrite map_app. simpl. apply NoDup_app. split_and!; [done| |apply NoDup_singleton].
      intros t Ht ->%list_elem_of_singleton. apply Hnew.
      rewrite jsget_insert_ne, jsget_insert_eq in Ht by done. exact Ht.
Qed.

(** Every queued entry is a command that passes validation for the type
    it carries, and has a number as uid: the replay finds nothing in a
    queue that validation would refuse. *)
Theorem queued_entries_valid (events : list event) (id : string) (entry : obj) :
  entry ∈ CommandQue (getClientDatabase (run events) id) →
  _validateCommandParams (jsget entry "type") entry = None
  ∧ ∃ uid, entry !! "uid" = Some (JInt uid).
Proof.
  revert entry.
  apply (run_invariant
           (fun m => ∀ entry, entry ∈ CommandQue (getClientDatabase m id) →
              _validateCommandParams (jsget entry "type") entry = None
              ∧ ∃ uid, entry !! "uid" = Some (JInt uid))).
  - unfold getClientDatabase. simpl. by intros entry ?%elem_of_nil.
  - intros m e IH entry.
    destruct (handle_queue m e id)
      as [Hsub|(id' & commandID & payload & rnd & _ & _ & Hval & _ & ->)].
    + intros Hin. apply IH. by eapply elem_of_sublist.
    + intros [Hin| ->%list_elem_of_singleton]%elem_of_app; [by apply IH|].
      rewrite jsget_insert_ne, jsget_insert_eq by done.
      rewrite validation_ignores_type_uid. split; [done|].
      exists rnd. apply lookup_insert_eq.
Qed.

Lemma queued_entries_valid_witness :
  _validateCommandParams
    (jsget (<["uid" := JInt 7]> {["type" := JStr "0xLO"]}) "type")
    (<["uid" := JInt 7]> {["type" := JStr "0xLO"]}) = None
  ∧ ∃ uid, (<["uid" := JInt 7]> {["type" := JStr "0xLO"]} : obj) !! "uid"
           = Some (JInt uid).
Proof.
  apply (queued_entries_valid
           [Connect "A1" 1 ∅ 10 (fun _ => 0); Disconnect "A1" 20;
            Command "A1" (JStr "0xLO") ∅ 7] "A1").
  vm_compute. apply list_elem_of_here.
Defined.

(** ** What a replay sends *)

Lemma replayTurn_beyond id rnd k m :
  (length (CommandQue (getClientDatabase m id)) ≤ k)%nat →
  replayTurn id rnd k m = (m, false).
Proof.
  intros Hk. unfold replayTurn. by rewrite lookup_ge_None_2.
Qed.

Lemma forEachIndex_beyond id rnds turns k m :
  (length (CommandQue (getClientDatabase m id)) ≤ k)%nat →
  forEachIndex (fun k => replayTurn id (rnds k) k) turns k m = (m, false).
Proof.
  revert k. induction turns as [|n IH]; intros k Hk; simpl; [done|].
  rewrite replayTurn_beyond by done. apply IH. lia.
Qed.

Lemma replayTurn_sends id rnd k m socket command :
  clientConnections m !! id = Some socket →
  is_Some (findClient m id) →
  CommandQue (getClientDatabase m id) !! k = Some command →
  _validateCommandParams (jsget command "type") command = None →
  replayTurn id rnd k m
  = (removeQueued (emitOrder m socket command) id (jsget command "uid"), false).
Proof.
  intros Hsock [ic Hic] Hk Hval. unfold replayTurn. rewrite Hk.
  unfold sendCommand. by rewrite Hval, Hic, Hsock, (replay_type_assignment _ Hval).
Qed.

Lemma filter_keeps_all {A} (P : A → Prop) `{!∀ x, Decision (P x)} (l : list A) :
  Forall P l → filter P l = l.
Proof.
  induction 1 as [|x l Hx Hl IH]; [done|].
  by rewrite filter_cons, decide_True, IH.
Qed.

(** Taking out the entries with the uid of one entry takes out that entry
    alone when the uids are pairwise different. *)
Lemma remove_by_uid kept command rest :
  NoDup ((fun e : obj => e !! "uid") <$> kept ++ command :: rest) →
  is_Some (command !! "uid") →
  filter (fun c => ¬ matchesProp "uid" (jsget command "uid") c) (kept ++ command :: rest)
  = kept ++ rest.
Proof.
  intros Hnd [u Hu]. unfold matchesProp, jsget. rewrite Hu. simpl.
  rewrite fmap_app, fmap_cons in Hnd.
  apply NoDup_app in Hnd as (_ & Hkept & [Hrest _]%NoDup_cons).
  rewrite filter_app, filter_cons, decide_False by (intros Hn; by apply Hn).
  rewrite !filter_keeps_all; [done|..].
  - apply Forall_forall. intros c Hc Heq. apply Hrest. rewrite Hu, <- Heq.
    by apply list_elem_of_fmap_2.
  - apply Forall_forall. intros c Hc Heq.
    apply (Hkept (c !! "uid")); [by apply list_elem_of_fmap_2|].
    rewrite Heq, <- Hu. apply list_elem_of_here.
Qed.

Lemma replayable_without kept command rest :
  replayable (kept ++ command :: rest) → replayable (kept ++ rest).
Proof.
  intros (Hval & Huid & Hnd). unfold replayable.
  rewrite !Forall_app, !Forall_cons in *.
  split_and!; try tauto.
  eapply sublist_NoDup; [exact Hnd|]. apply fmap_sublist.
  apply sublist_app; [done|]. by apply sublist_cons.
Qed.

(** The loop, from a turn whose index is the number of entries passed over
    so far. *)
Lemma forEachIndex_alternates id rnds socket :
  ∀ turns rest kept m,
    clientConnections m !! id = Some socket →
    is_Some (findClient m id) →
    CommandQue (getClientDatabase m id) = kept ++ rest →
    replayable (kept ++ rest) →
    (length rest ≤ turns)%nat →
    orders (forEachIndex (fun k => replayTurn id (rnds k) k) turns (length kept) m).1
    = orders m ++ ((fun e => (socket, e)) <$> evens rest)
    ∧ CommandQue
        (getClientDatabase
           (forEachIndex (fun k => replayTurn id (rnds k) k) turns (length kept) m).1 id)
      = kept ++ odds rest
    ∧ (forEachIndex (fun k => replayTurn id (rnds k) k) turns (length kept) m).2 = false.
Proof.
  induction turns as [|turns IH]; intros rest kept m Hsock Hex Hq Hre Hlen.
  { destruct rest; [|simpl in Hlen; lia]. simpl. by rewrite !app_nil_r in *. }
  destruct rest as [|a rest].
  { rewrite forEachIndex_beyond by (rewrite Hq, app_nil_r; lia).
    simpl. by rewrite !app_nil_r in *. }
  assert (replayTurn id (rnds (length kept)) (length kept) m
          = (removeQueued (emitOrder m socket a) id (jsget a "uid"), false)) as Hturn.
  { destruct Hre as (Hval & _). apply replayTurn_sends; [done..| |].
    - rewrite Hq. by rewrite lookup_app_r, Nat.sub_diag by lia.
    - rewrite Forall_app, Forall_cons in Hval. tauto. }
  assert (CommandQue
            (getClientDatabase (removeQueued (emitOrder m socket a) id (jsget a "uid")) id)
          = kept ++ rest) as Hleft.
  { unfold removeQueued. rewrite getClientDatabase_writeDoc. simpl.
    change (getClientDatabase (emitOrder m socket a) id) with (getClientDatabase m id).
    rewrite Hq. destruct Hre as (_ & Huid & Hnd). apply remove_by_uid; [done|].
    rewrite Forall_app, Forall_cons in Huid. tauto. }
  cbn [forEachIndex]. rewrite Hturn. cbv iota.
  destruct rest as [|b rest].
  - rewrite forEachIndex_beyond by (rewrite Hleft, app_nil_r; lia).
    cbn [fst snd]. rewrite Hleft. simpl. by rewrite app_nil_r.
  - assert (S (length kept) = length (kept ++ [b])) as ->
      by (rewrite length_app; simpl; lia).
    destruct (IH rest (kept ++ [b])
                (removeQueued (emitOrder m socket a) id (jsget a "uid")))
      as (Hord & Hque & Hthrew); [done|done| | | |].
    + by rewrite Hleft, <- app_assoc.
    + rewrite <- app_assoc. simpl. by eapply replayable_without.
    + simpl in Hlen. lia.
    + rewrite Hord, Hque, Hthrew. simpl. by rewrite <- !app_assoc.
Qed.

(** What a connect replays. For an agent whose queued entries pass
    validation and carry pairwise different uids, the entries at the even
    positions 0, 2, 4, ... are emitted on the new socket, in this order, and
    the entries at the odd positions are what the queue holds afterwards:
    each removal shifts the rest of the array under the running loop. *)
Theorem replay_alternates (m : ClientManager) (connection : nat) (id : string)
    (data : obj) (now : Z) (rnds : nat → Z) :
  replayable (CommandQue (getClientDatabase m id)) →
  orders (clientConnect m connection id data now rnds)
  = orders m
      ++ ((fun e => (connection, e)) <$> evens (CommandQue (getClientDatabase m id)))
  ∧ CommandQue (getClientDatabase (clientConnect m connection id data now rnds) id)
    = odds (CommandQue (getClientDatabase m id)).
Proof.
  intros Hre. rewrite clientConnect_unfold.
  set (m1 := Manager _ _ _ _ _ _). set (m2 := _updateOrCreateClient m1 id data now).
  destruct (updateOrCreate_fields m1 id data now) as (Hs & _ & _ & Hd).
  assert (getClientDatabase m2 id = getClientDatabase m id) as Hdb
    by (unfold getClientDatabase, m2; by rewrite Hd).
  assert (is_Some (findClient m2 id)) as Hex.
  { destruct (getClient_updateOrCreate m1 id data now) as (c & Hc & _).
    destruct (getClient_findClient m2 id) as [ic ->]; [|done].
    unfold m2. rewrite Hc. eauto. }
  assert (clientConnections m2 !! id = Some connection) as Hsock
    by (unfold m2; rewrite Hs; apply lookup_insert_eq).
  assert (orders m2 = orders m) as Hord
    by (unfold m2, _updateOrCreateClient; by destruct (findClient m1 id) as [[? ?]|]).
  rewrite getClientDatabase_gpsPollUnless, gpsPollUnless_orders.
  unfold _processCommandQueue, replayQueue. rewrite Hdb.
  destruct (CommandQue (getClientDatabase m id)) as [|a q] eqn:Hq.
  { simpl. by rewrite Hdb, Hq, Hord, app_nil_r. }
  rewrite bool_decide_false by done.
  destruct (forEachIndex_alternates id rnds connection (length (a :: q)) (a :: q) [] m2)
    as (H1 & H2 & _); try done.
  { by rewrite Hdb, Hq. }
  simpl length in *. rewrite H1, H2, Hord. done.
Qed.

Lemma replay_alternates_witness :
  CommandQue
    (getClientDatabase
       (clientConnect
          (run [Connect "A1" 1 ∅ 10 (fun _ => 0); Disconnect "A1" 20;
                Command "A1" (JStr "0xLO") ∅ 7; Command "A1" (JStr "0xCO") ∅ 8;
                Command "A1" (JStr "0xWI") ∅ 9])
          2 "A1" ∅ 30 (fun _ => 0))
       "A1")
  = odds
      (CommandQue
         (getClientDatabase
            (run [Connect "A1" 1 ∅ 10 (fun _ => 0); Disconnect "A1" 20;
                  Command "A1" (JStr "0xLO") ∅ 7; Command "A1" (JStr "0xCO") ∅ 8;
                  Command "A1" (JStr "0xWI") ∅ 9])
            "A1")).
Proof.
  apply (replay_alternates
           (run [Connect "A1" 1 ∅ 10 (fun _ => 0); Disconnect "A1" 20;
                 Command "A1" (JStr "0xLO") ∅ 7; Command "A1" (JStr "0xCO") ∅ 8;
                 Command "A1" (JStr "0xWI") ∅ 9])
           2 "A1" ∅ 30 (fun _ => 0)).
  unfold replayable. split_and!; apply (bool_decide_unpack _); vm_compute; exact I.
Defined.

(** ** The client records over a history *)

Lemma list_find_insert_other {A} (P : A → Prop) `{!∀ x, Decision (P x)}
    (l : list A) i x y :
  l !! i = Some x → ¬ P x → ¬ P y → list_find P (<[i := y]> l) = list_find P l.
Proof.
  revert i. induction l as [|z l IH]; intros i Hi Hx Hy; [done|].
  destruct i as [|i]; simpl in *.
  - injection Hi as ->. by rewrite !decide_False by done.
  - destruct (decide (P z)); [done|]. by rewrite (IH i).
Qed.

Lemma list_find_snoc_other {A} (P : A → Prop) `{!∀ x, Decision (P x)} (l : list A) y :
  ¬ P y → list_find P (l ++ [y]) = list_find P l.
Proof.
  intros Hy. induction l as [|z l IH]; simpl.
  - by rewrite decide_False.
  - destruct (decide (P z)); [done|]. by rewrite IH.
Qed.

Lemma clients_clientConnect m connection id data now rnds :
  clients (clientConnect m connection id data now rnds)
  = clients (_updateOrCreateClient m id data now).
Proof.
  rewrite clientConnect_unfold.
  set (m1 := Manager _ _ _ _ _ _). set (m2 := _updateOrCreateClient m1 id data now).
  destruct (gpsPollUnless_fields (replayQueue m2 id rnds).2
              (_processCommandQueue m2 id rnds) id) as (-> & _).
  destruct (processCommandQueue_sessions m2 id rnds) as (-> & _).
  unfold m2, _updateOrCreateClient, findClient. simpl.
  by destruct (list_find _ (clients m)) as [[i c]|].
Qed.

Lemma getClient_same_clients m m' id :
  clients m' = clients m → getClient m' id = getClient m id.
Proof. intros H. unfold getClient, findClient. by rewrite H. Qed.

Lemma getClient_updateOrCreate_cases m id data now :
  getClient (_updateOrCreateClient m id data now) id
  = Some (match getClient m id with
          | Some c => Client (clientID c) (firstSeen c) now true data
          | None => Client id now now true data
          end).
Proof.
  unfold _updateOrCreateClient, getClient.
  destruct (findClient m id) as [[i c]|] eqn:Hf; unfold findClient in *; simpl.
  - erewrite list_find_update; [done|exact Hf|].
    by apply list_find_Some in Hf as (_ & ? & _).
  - by erewrite list_find_snoc_new.
Qed.

Lemma getClient_updateOrCreate_other m id id' data now :
  id ≠ id' → getClient (_updateOrCreateClient m id data now) id' = getClient m id'.
Proof.
  intros Hne. unfold _updateOrCreateClient, getClient.
  destruct (findClient m id) as [[i c]|] eqn:Hf; unfold findClient in *; simpl.
  - apply list_find_Some in Hf as (Hi & Hc & _).
    erewrite list_find_insert_other; [done|exact Hi|congruence|simpl; congruence].
  - by rewrite list_find_snoc_other by (simpl; congruence).
Qed.

Lemma getClient_disconnect_other m id id' now :
  id ≠ id' → getClient (clientDisconnect m id now) id' = getClient m id'.
Proof.
  intros Hne. unfold clientDisconnect.
  destruct (ignoreDisconnects m !! id) as [[|]|]; try done;
    unfold getClient, findClient; simpl;
    destruct (list_find (fun c => clientID c = id) (clients m)) as [[i c]|] eqn:Hf;
    try done;
    apply list_find_Some in Hf as (Hi & Hc & _);
    (erewrite list_find_insert_other; [done|exact Hi|congruence|simpl; congruence]).
Qed.

(** A disconnect leaves a record in place, offline or as it was. *)
Lemma getClient_disconnect_self m id now c :
  getClient m id = Some c →
  getClient (clientDisconnect m id now) id = Some c
  ∨ getClient (clientDisconnect m id now) id
    = Some (Client (clientID c) (firstSeen c) now false (dynamicData c)).
Proof.
  intros Hc. destruct (decide (ignoreDisconnects m !! id = Some true)) as [Hflag|Hflag].
  - left. by rewrite (clientDisconnect_suppressed _ _ _ Hflag).
  - right. by apply clientDisconnect_proceeds.
Qed.

Lemma getClient_disconnect_none m id now :
  getClient m id = None → getClient (clientDisconnect m id now) id = None.
Proof.
  unfold getClient, clientDisconnect.
  destruct (findClient m id) as [[i c]|] eqn:Hf; [done|]. intros _.
  destruct (ignoreDisconnects m !! id) as [[|]|]; unfold findClient in *; simpl;
    by rewrite Hf.
Qed.

Lemma sockets_clientConnect m connection id data now rnds :
  clientConnections (clientConnect m connection id data now rnds)
  = <[id := connection]> (clientConnections m).
Proof.
  rewrite clientConnect_unfold.
  set (m1 := Manager _ _ _ _ _ _). set (m2 := _updateOrCreateClient m1 id data now).
  destruct (gpsPollUnless_fields (replayQueue m2 id rnds).2
              (_processCommandQueue m2 id rnds) id) as (_ & -> & _).
  destruct (processCommandQueue_sessions m2 id rnds) as (_ & -> & _).
  unfold m2. by destruct (updateOrCreate_fields m1 id data now) as (-> & _).
Qed.

(** One record per agent: in every state that a history leads to, no two
    client records have the same id. *)
Theorem one_record_per_agent (events : list event) :
  NoDup (clientID <$> clients (run events)).
Proof.
  apply (run_invariant (fun m => NoDup (clientID <$> clients m))).
  - simpl. constructor.
  - intros m e IH.
    destruct e as [id connection data now rnds|id now|id commandID payload rnd]; simpl.
    + rewrite clients_clientConnect. unfold _updateOrCreateClient.
      destruct (findClient m id) as [[i c]|] eqn:Hf; unfold findClient in *; simpl.
      * apply list_find_Some in Hf as (Hi & _).
        rewrite list_fmap_insert. simpl. rewrite list_insert_id; [done|].
        by rewrite list_lookup_fmap, Hi.
      * rewrite fmap_app. simpl. apply NoDup_app.
        split_and!; [done| |apply NoDup_singleton].
        intros x (c & -> & Hc)%list_elem_of_fmap Heq%list_elem_of_singleton.
        apply list_find_None in Hf. rewrite Forall_forall in Hf. by apply (Hf c).
    + unfold clientDisconnect.
      destruct (ignoreDisconnects m !! id) as [[|]|]; simpl; try done;
        destruct (findClient m id) as [[i c]|] eqn:Hf; unfold findClient in *;
        simpl; try done;
        apply list_find_Some in Hf as (Hi & _);
        rewrite list_fmap_insert; simpl; (rewrite list_insert_id; [done|]);
        by rewrite list_lookup_fmap, Hi.
    + by destruct (sendCommand_sessions m id commandID payload rnd) as (-> & _).
Qed.

Lemma runOn_invariant (P : ClientManager → Prop) db :
  P (newClientManager db) → (∀ m e, P m → P (handle m e)) → ∀ events, P (runOn db events).
Proof.
  intros H0 Hstep events. induction events as [|e events IH] using rev_ind; [done|].
  unfold runOn in *. rewrite fold_left_app. by apply Hstep.
Qed.

Lemma handle_sockets_online m0 m e :
  (∀ id,
     (is_Some (clientConnections m !! id) →
        ∃ c, getClient m id = Some c ∧ isOnline c = true)
     ∧ (∀ c, getClient m id = Some c → isOnline c = true →
          is_Some (clientConnections m !! id) ∨ getClient m0 id = Some c)) →
  ∀ id,
    (is_Some (clientConnections (handle m e) !! id) →
       ∃ c, getClient (handle m e) id = Some c ∧ isOnline c = true)
    ∧ (∀ c, getClient (handle m e) id = Some c → isOnline c = true →
         is_Some (clientConnections (handle m e) !! id) ∨ getClient m0 id = Some c).
Proof.
  intros IH id'.
  destruct e as [id connection data now rnds|id now|id commandID payload rnd]; simpl.
  - rewrite sockets_clientConnect.
    rewrite (getClient_same_clients (_updateOrCreateClient m id data now))
      by apply clients_clientConnect.
    destruct (decide (id = id')) as [->|Hne].
    + rewrite lookup_insert_eq, getClient_updateOrCreate_cases.
      split; [|eauto]. intros _. eexists. split; [done|].
      by destruct (getClient m id').
    + rewrite lookup_insert_ne, getClient_updateOrCreate_other by done. apply IH.
  - destruct (decide (id = id')) as [->|Hne].
    + destruct (decide (ignoreDisconnects m !! id' = Some true)) as [Hflag|Hflag].
      { rewrite (clientDisconnect_suppressed _ _ _ Hflag).
        rewrite (getClient_same_clients m) by done. apply IH. }
      destruct (clientDisconnect_proceeds m id' now Hflag) as (-> & _ & _ & Hrec).
      split; [by intros [? ?]|]. intros c Hc Hon. exfalso.
      destruct (getClient m id') as [c0|] eqn:Hc0.
      * rewrite (Hrec c0 eq_refl) in Hc. injection Hc as <-. done.
      * rewrite getClient_disconnect_none in Hc by done. done.
    + rewrite getClient_disconnect_other by done.
      assert (clientConnections (clientDisconnect m id now) !! id'
              = clientConnections m !! id') as ->; [|apply IH].
      unfold clientDisconnect.
      destruct (ignoreDisconnects m !! id) as [[|]|]; simpl; try done;
        by rewrite lookup_delete_ne.
  - destruct (sendCommand_sessions m id commandID payload rnd) as (Hc & -> & _).
    rewrite (getClient_same_clients m) by done. apply IH.
Qed.

(** The socket and the online mark. The constructor takes the store as an
    earlier run left it, and only a handled disconnect writes [isOnline]
    false. In every state that a history leads to from any store: an agent
    with a registered socket has a client record with [isOnline] true; and
    a record with [isOnline] true belongs to an agent with a socket, or is
    the record of that agent as the store held it at the start. So on a
    store whose records are all offline (an empty store among them), an
    agent has a socket if and only if its record says online. *)
Theorem online_iff_socket (db : store) (events : list event) (id : string) :
  (is_Some (clientConnections (runOn db events) !! id) →
     ∃ c, getClient (runOn db events) id = Some c ∧ isOnline c = true)
  ∧ (∀ c, getClient (runOn db events) id = Some c → isOnline c = true →
       is_Some (clientConnections (runOn db events) !! id)
       ∨ getClient (newClientManager db) id = Some c)
  ∧ (Forall (fun c => isOnline c = false) (maindb db) →
       (is_Some (clientConnections (runOn db events) !! id)
        ↔ ∃ c, getClient (runOn db events) id = Some c ∧ isOnline c = true)).
Proof.
  assert (∀ id,
            (is_Some (clientConnections (runOn db events) !! id) →
               ∃ c, getClient (runOn db events) id = Some c ∧ isOnline c = true)
            ∧ (∀ c, getClient (runOn db events) id = Some c → isOnline c = true →
                 is_Some (clientConnections (runOn db events) !! id)
                 ∨ getClient (newClientManager db) id = Some c)) as Hinv.
  { apply (runOn_invariant
             (fun m => ∀ id,
                (is_Some (clientConnections m !! id) →
                   ∃ c, getClient m id = Some c ∧ isOnline c = true)
                ∧ (∀ c, getClient m id = Some c → isOnline c = true →
                     is_Some (clientConnections m !! id)
                     ∨ getClient (newClientManager db) id = Some c))).
    - intros id'. simpl. rewrite lookup_empty. split; [by intros [? ?]|]. by right.
    - intros m e. apply handle_sockets_online. }
  destruct (Hinv id) as [H1 H2]. split_and!; [done..|].
  intros Hoff. split; [done|]. intros (c & Hc & Hon).
  destruct (H2 c Hc Hon) as [?|Hstale]; [done|]. exfalso.
  unfold getClient, findClient in Hstale. simpl in Hstale.
  destruct (list_find _ (maindb db)) as [[i c']|] eqn:Hf; [|done].
  simpl in Hstale. injection Hstale as ->.
  apply list_find_Some in Hf as (Hi & _).
  rewrite Forall_forall in Hoff. rewrite (Hoff c) in Hon; [done|].
  apply list_elem_of_lookup. eauto.
Qed.

Lemma online_iff_socket_witness :
  (is_Some (clientConnections (runOn (Store [] ∅) [Connect "A1" 1 ∅ 10 (fun _ => 0)])
              !! "A1")
   ↔ ∃ c, getClient (runOn (Store [] ∅) [Connect "A1" 1 ∅ 10 (fun _ => 0)]) "A1" = Some c
          ∧ isOnline c = true)
  ∧ (getClient (runOn (Store [Client "A1" 1 5 true ∅] ∅) []) "A1"
     = Some (Client "A1" 1 5 true ∅)
     ∧ clientConnections (runOn (Store [Client "A1" 1 5 true ∅] ∅) []) !! "A1" = None).
Proof.
  split.
  - apply (online_iff_socket (Store [] ∅) [Connect "A1" 1 ∅ 10 (fun _ => 0)] "A1").
    constructor.
  - split; vm_compute; reflexivity.
Defined.

Lemma handle_keeps_record m e id c :
  getClient m id = Some c →
  ∃ c', getClient (handle m e) id = Some c'
        ∧ firstSeen c' = firstSeen c ∧ clientID c' = clientID c.
Proof.
  intros Hc.
  destruct e as [id' connection data now rnds|id' now|id' commandID payload rnd]; simpl.
  - rewrite (getClient_same_clients (_updateOrCreateClient m id' data now))
      by apply clients_clientConnect.
    destruct (decide (id' = id)) as [->|Hne].
    + rewrite getClient_updateOrCreate_cases, Hc. eauto.
    + rewrite getClient_updateOrCreate_other by done. eauto.
  - destruct (decide (id' = id)) as [->|Hne].
    + destruct (getClient_disconnect_self m id now c Hc) as [-> | ->]; eauto.
    + rewrite getClient_disconnect_other by done. eauto.
  - destruct (sendCommand_sessions m id' commandID payload rnd) as (Hcl & _).
    rewrite (getClient_same_clients m) by done. eauto.
Qed.

(** The first connect of an agent creates its record with [firstSeen] and
    [lastSeen] at the time of the connect; whatever connects, disconnects
    and commands follow, the record stays and keeps its [firstSeen]. *)
Theorem record_created_once (events more : list event) (id : string) :
  (∀ m connection data now rnds, getClient m id = None →
     getClient (clientConnect m connection id data now rnds) id
     = Some (Client id now now true data))
  ∧ (∀ c, getClient (run events) id = Some c →
       ∃ c', getClient (run (events ++ more)) id = Some c'
             ∧ firstSeen c' = firstSeen c ∧ clientID c' = clientID c).
Proof.
  split.
  - intros m connection data now rnds Hnone.
    rewrite (getClient_same_clients (_updateOrCreateClient m id data now))
      by apply clients_clientConnect.
    by rewrite getClient_updateOrCreate_cases, Hnone.
  - intros c Hc. induction more as [|e more IH] using rev_ind.
    + rewrite app_nil_r. eauto.
    + destruct IH as (c1 & Hc1 & Hfs & Hid).
      rewrite app_assoc, run_snoc.
      destruct (handle_keeps_record (run (events ++ more)) e id c1 Hc1)
        as (c2 & Hc2 & Hfs2 & Hid2).
      exists c2. split_and!; [done|congruence..].
Qed.

Lemma record_created_once_witness :
  ∃ c', getClient
          (run ([Connect "A1" 1 ∅ 10 (fun _ => 0)]
                ++ [Disconnect "A1" 20; Connect "A1" 2 ∅ 30 (fun _ => 0)])) "A1"
        = Some c'
        ∧ firstSeen c' = firstSeen (Client "A1" 10 10 true ∅)
        ∧ clientID c' = clientID (Client "A1" 10 10 true ∅).
Proof.
  apply (record_created_once [Connect "A1" 1 ∅ 10 (fun _ => 0)]
           [Disconnect "A1" 20; Connect "A1" 2 ∅ 30 (fun _ => 0)] "A1").
  vm_compute. reflexivity.
Defined.

(** ** Deleting a client *)

Lemma list_find_filter_snd {A} (P Q : A → Prop) `{!∀ x, Decision (P x)}
    `{!∀ x, Decision (Q x)} (l : list A) :
  (∀ x, P x → Q x) →
  snd <$> list_find P (filter Q l) = snd <$> list_find P l.
Proof.
  intros HPQ.
  assert (∀ o : option (nat * A), snd <$> (prod_map S id <$> o) = snd <$> o) as Hs
    by (by intros [[? ?]|]).
  induction l as [|x l IH]; [done|].
  rewrite filter_cons. simpl. destruct (decide (P x)) as [Hx|Hx].
  - rewrite decide_True by auto. simpl. by rewrite decide_True.
  - destruct (decide (Q x)); simpl; rewrite ?decide_False by done;
      rewrite ?Hs; exact IH.
Qed.

(** After [deleteClient] the agent has no record, no socket and no timer,
    and no command for it succeeds or has any effect: a command that passes
    validation is answered that the client does not exist, the others end
    as their validation does. The records, sockets and timers of the other
    agents are as before. *)
Theorem deleteClient_forgets (m : ClientManager) (id : string) :
  getClient (deleteClient m id) id = None
  ∧ clientConnections (deleteClient m id) !! id = None
  ∧ gpsPollers (deleteClient m id) !! id = None
  ∧ (∀ commandID payload rnd,
       (sendCommand (deleteClient m id) id commandID payload rnd).1 = deleteClient m id
       ∧ (∀ message,
            (sendCommand (deleteClient m id) id commandID payload rnd).2 ≠ Done message)
       ∧ (_validateCommandParams commandID payload = None →
            sendCommand (deleteClient m id) id commandID payload rnd
            = (deleteClient m id, Failed "Client doesn't exist!")))
  ∧ (∀ id', id ≠ id' →
       getClient (deleteClient m id) id' = getClient m id'
       ∧ clientConnections (deleteClient m id) !! id' = clientConnections m !! id'
       ∧ gpsPollers (deleteClient m id) !! id' = gpsPollers m !! id').
Proof.
  assert (getClient (deleteClient m id) id = None) as Hgone.
  { unfold getClient, findClient. simpl.
    destruct (list_find _ _) as [[i c]|] eqn:Hf; [|done]. exfalso.
    apply list_find_Some in Hf as (Hi & Hc & _).
    apply list_elem_of_lookup_2, list_elem_of_filter in Hi as [Hne _]. done. }
  split_and!; [done|apply lookup_delete_eq|apply lookup_delete_eq| |].
  - intros commandID payload rnd. unfold sendCommand.
    unfold getClient in Hgone.
    destruct (findClient (deleteClient m id) id); [done|].
    by destruct (_validateCommandParams commandID payload) as [[e|]| |].
  - intros id' Hne. split_and!.
    + unfold getClient, findClient. simpl. apply list_find_filter_snd.
      intros c Hc. congruence.
    + by apply lookup_delete_ne.
    + by apply lookup_delete_ne.
Qed.

(** ** The poll timer *)

Lemma filter_drops_all {A} (P : A → Prop) `{!∀ x, Decision (P x)} (l : list A) :
  Forall (fun x => ¬ P x) l → filter P l = [].
Proof.
  induction 1 as [|x l Hx Hl IH]; [done|].
  by rewrite filter_cons, decide_False, IH.
Qed.

Lemma location_command_valid : _validateCommandParams (JStr "0xLO") ∅ = None.
Proof. reflexivity. Qed.

Lemma gpsPollTick_pending m id rnd :
  clientConnections m !! id = None →
  JStr "0xLO" ∈ pendingTypes m id →
  gpsPollTick m id rnd = m.
Proof.
  intros Hoff Hin. unfold gpsPollTick, sendCommand, messageKeys.location.
  rewrite location_command_valid. destruct (findClient m id); [|done].
  rewrite Hoff. unfold _queueCommand. rewrite jsget_insert_eq.
  fold (pendingTypes m id). by rewrite bool_decide_true.
Qed.

Lemma gpsPollTicks_pending m id rnds :
  clientConnections m !! id = None →
  JStr "0xLO" ∈ pendingTypes m id →
  fold_left (fun m rnd => gpsPollTick m id rnd) rnds m = m.
Proof.
  intros Hoff Hin. induction rnds as [|r rnds IH]; [done|].
  simpl. by rewrite gpsPollTick_pending.
Qed.

Lemma gpsPollTicks_unknown m id rnds :
  getClient m id = None →
  fold_left (fun m rnd => gpsPollTick m id rnd) rnds m = m.
Proof.
  intros Hnone. induction rnds as [|r rnds IH]; [done|].
  simpl. rewrite <- IH at 2. f_equal.
  unfold gpsPollTick, sendCommand, messageKeys.location.
  rewrite location_command_valid. unfold getClient in Hnone.
  by destruct (findClient m id).
Qed.

(** The ticks of the poll timer. For an id without a client record (a
    timer can be set for any id), every tick is refused and the manager
    stays as it is: nothing is emitted and nothing is pending. For an agent
    with a record: while it has a socket, every tick emits one location
    order and touches no document; while it has none (the timer was set
    for an offline agent), any number of ticks leaves exactly one location
    command pending: the first tick queues it unless one was pending, the
    others are refused as duplicates. *)
Theorem poll_ticks (m : ClientManager) (id : string) (rnd : Z) (rnds : list Z) :
  (getClient m id = None →
     fold_left (fun m rnd => gpsPollTick m id rnd) (rnd :: rnds) m = m)
  ∧ (is_Some (getClient m id) →
     ∀ socket, clientConnections m !! id = Some socket →
     orders (fold_left (fun m rnd => gpsPollTick m id rnd) (rnd :: rnds) m)
     = orders m ++ replicate (length (rnd :: rnds)) (socket, <["type" := JStr "0xLO"]> ∅)
     ∧ clientData (fold_left (fun m rnd => gpsPollTick m id rnd) (rnd :: rnds) m)
       = clientData m)
  ∧ (is_Some (getClient m id) → clientConnections m !! id = None →
       orders (fold_left (fun m rnd => gpsPollTick m id rnd) (rnd :: rnds) m) = orders m
       ∧ CommandQue
           (getClientDatabase
              (fold_left (fun m rnd => gpsPollTick m id rnd) (rnd :: rnds) m) id)
         = (if bool_decide (JStr "0xLO" ∈ pendingTypes m id)
            then CommandQue (getClientDatabase m id)
            else CommandQue (getClientDatabase m id)
                   ++ [<["uid" := JInt rnd]> (<["type" := JStr "0xLO"]> ∅)])
       ∧ length
           (filter (fun t => t = JStr "0xLO")
              (pendingTypes
                 (fold_left (fun m rnd => gpsPollTick m id rnd) (rnd :: rnds) m) id))
         = (if bool_decide (JStr "0xLO" ∈ pendingTypes m id)
            then length (filter (fun t => t = JStr "0xLO") (pendingTypes m id))
            else 1%nat)).
Proof.
  split_and!.
  - apply gpsPollTicks_unknown.
  - intros Hex socket Hsock. generalize (rnd :: rnds). clear rnd rnds.
    intros l. revert m Hex Hsock. induction l as [|r l IH]; intros m Hex Hsock.
    { simpl. by rewrite app_nil_r. }
    assert (gpsPollTick m id r = emitOrder m socket (<["type" := JStr "0xLO"]> ∅)) as Ht.
    { unfold gpsPollTick, sendCommand, messageKeys.location.
      rewrite location_command_valid.
      destruct (getClient_findClient _ _ Hex) as [ic ->]. by rewrite Hsock. }
    simpl fold_left. rewrite Ht.
    destruct (IH (emitOrder m socket (<["type" := JStr "0xLO"]> ∅))) as [H1 H2];
      [done..|].
    rewrite H1, H2. simpl. by rewrite <- app_assoc.
  - intros Hex Hoff. simpl fold_left.
    assert (sendCommand m id (JStr "0xLO") ∅ rnd
            = if bool_decide (JStr "0xLO" ∈ pendingTypes m id)
              then (m, Failed "A similar command has already been queued")
              else (writeDoc m id
                      (withCommandQue
                         (CommandQue (getClientDatabase m id)
                            ++ [<["uid" := JInt rnd]> (<["type" := JStr "0xLO"]> ∅)])
                         (getClientDatabase m id)),
                    Done "Command queued (device is offline)")) as Hsend
      by (by apply sendCommand_offline).
    unfold gpsPollTick at 2 4 6. unfold messageKeys.location. rewrite Hsend.
    case_bool_decide as Hpend; simpl.
    + by rewrite gpsPollTicks_pending.
    + rewrite gpsPollTicks_pending; [| done |].
      * simpl. rewrite getClientDatabase_writeDoc. simpl. split_and!; [done..|].
        unfold pendingTypes. rewrite getClientDatabase_writeDoc. simpl.
        rewrite map_app, filter_app, length_app. simpl.
        rewrite jsget_insert_ne, jsget_insert_eq by done.
        rewrite filter_cons, decide_True by done. simpl.
        assert (filter (fun t => t = JStr "0xLO")
                  (map (fun cmd => jsget cmd "type") (CommandQue (getClientDatabase m id)))
                = []) as ->; [|done].
        apply filter_drops_all, Forall_forall. intros t Ht ->. by apply Hpend.
      * unfold pendingTypes. rewrite getClientDatabase_writeDoc. simpl.
        rewrite map_app. apply elem_of_app. right. simpl.
        rewrite jsget_insert_ne, jsget_insert_eq by done. apply list_elem_of_here.
Qed.

Lemma poll_ticks_witness :
  CommandQue
    (getClientDatabase
       (fold_left (fun m rnd => gpsPollTick m "A1" rnd) [7; 8; 9]
          (run [Connect "A1" 1 ∅ 10 (fun _ => 0); Disconnect "A1" 20]))
       "A1")
  = [<["uid" := JInt 7]> (<["type" := JStr "0xLO"]> ∅)]
  ∧ fold_left (fun m rnd => gpsPollTick m "A2" rnd) [7; 8; 9]
      (setGpsPollSpeed newManager "A2" 30).1
    = (setGpsPollSpeed newManager "A2" 30).1.
Proof.
  split.
  - destruct (poll_ticks (run [Connect "A1" 1 ∅ 10 (fun _ => 0); Disconnect "A1" 20])
                "A1" 7 [8; 9]) as (_ & _ & Hoff).
    destruct Hoff as (_ & Hq & _);
      [vm_compute; eexists; reflexivity|vm_compute; reflexivity|].
    exact Hq.
  - apply (poll_ticks (setGpsPollSpeed newManager "A2" 30).1 "A2" 7 [8; 9]).
    vm_compute. reflexivity.
Defined.

Lemma sendCommand_gpsSettings m id id' commandID payload rnd :
  GPSSettings (getClientDatabase (sendCommand m id commandID payload rnd).1 id')
  = GPSSettings (getClientDatabase m id').
Proof.
  destruct (sendCommand_cases m id commandID payload rnd)
    as [(r & -> & _)|[(socket & _ & _ & ->)|(_ & _ & _ & ->)]]; simpl; [done..|].
  destruct (decide (id = id')) as [->|Hne].
  - by rewrite getClientDatabase_writeDoc.
  - by rewrite getClientDatabase_writeDoc_ne.
Qed.

Lemma replayTurn_gpsSettings id id' rnd k m :
  GPSSettings (getClientDatabase (replayTurn id rnd k m).1 id')
  = GPSSettings (getClientDatabase m id').
Proof.
  unfold replayTurn.
  destruct (CommandQue (getClientDatabase m id) !! k) as [c|]; [|done].
  pose proof (sendCommand_gpsSettings m id id' (jsget c "type") c rnd) as Hs.
  destruct (sendCommand m id (jsget c "type") c rnd) as [m' [msg|err| |]]; simpl in *;
    [|done..].
  rewrite <- Hs. unfold removeQueued. destruct (decide (id = id')) as [->|Hne].
  - by rewrite getClientDatabase_writeDoc.
  - by rewrite getClientDatabase_writeDoc_ne.
Qed.

Lemma clientConnect_gpsSettings m connection id data now rnds id' :
  GPSSettings (getClientDatabase (clientConnect m connection id data now rnds) id')
  = GPSSettings (getClientDatabase m id').
Proof.
  rewrite clientConnect_unfold, getClientDatabase_gpsPollUnless.
  set (m1 := Manager _ _ _ _ _ _). set (m2 := _updateOrCreateClient m1 id data now).
  assert (getClientDatabase m2 id' = getClientDatabase m id') as <-.
  { unfold getClientDatabase, m2.
    by destruct (updateOrCreate_fields m1 id data now) as (_ & _ & _ & ->). }
  apply (processCommandQueue_invariant
           (fun m' => GPSSettings (getClientDatabase m' id')
                      = GPSSettings (getClientDatabase m2 id'))); [|done].
  intros k m' Hm'. by rewrite replayTurn_gpsSettings.
Qed.

Lemma clientConnectThrows_unfold m connection id data now rnds :
  clientConnectThrows m connection id data now rnds
  = (replayQueue
       (_updateOrCreateClient
          (Manager (<[id := connection]> (clientConnections m)) (gpsPollers m)
             (<[id := bool_decide (is_Some (ignoreDisconnects m !! id))]>
                (ignoreDisconnects m))
             (clients m) (clientData m) (orders m))
          id data now)
       id rnds).2.
Proof.
  unfold clientConnectThrows, listen, registered.
  set (m1 := Manager _ _ _ _ _ _).
  assert (clientConnections (_updateOrCreateClient m1 id data now) !! id
          = Some connection) as ->.
  { unfold _updateOrCreateClient. destruct (findClient m1 id) as [[i c]|]; simpl;
      apply lookup_insert_eq. }
  by destruct (replayQueue _ id rnds) as [m' []].
Qed.

Lemma replayTurn_quiet id rnd k m :
  quietQueue (CommandQue (getClientDatabase m id)) →
  (replayTurn id rnd k m).2 = false
  ∧ quietQueue (CommandQue (getClientDatabase (replayTurn id rnd k m).1 id)).
Proof.
  intros Hq. split.
  - unfold replayTurn.
    destruct (CommandQue (getClientDatabase m id) !! k) as [c|] eqn:Hk; [|done].
    assert (_validateCommandParams (jsget c "type") c ≠ Throws) as Hc.
    { unfold quietQueue in Hq. rewrite Forall_forall in Hq. apply Hq.
      apply list_elem_of_lookup. eauto. }
    pose proof (proj1 (sendCommand_reply m id (jsget c "type") c rnd)) as Hr.
    destruct (sendCommand m id (jsget c "type") c rnd) as [m' [msg|err| |]];
      simpl in *; try done.
    exfalso. by apply Hc, Hr.
  - unfold quietQueue in *. rewrite Forall_forall in *. intros e He. apply Hq.
    eapply elem_of_sublist; [exact He|]. apply replayTurn_queue.
Qed.

Lemma forEachIndex_quiet id rnds turns :
  ∀ k m, quietQueue (CommandQue (getClientDatabase m id)) →
    (forEachIndex (fun k => replayTurn id (rnds k) k) turns k m).2 = false.
Proof.
  induction turns as [|n IH]; intros k m Hq; [done|]. cbn [forEachIndex].
  destruct (replayTurn_quiet id (rnds k) k m Hq) as [Hf Hq'].
  destruct (replayTurn id (rnds k) k m) as [m' threw]; simpl in *. subst threw.
  by apply IH.
Qed.

Lemma replayQueue_quiet m id rnds :
  quietQueue (CommandQue (getClientDatabase m id)) → (replayQueue m id rnds).2 = false.
Proof.
  intros Hq. unfold replayQueue. case_bool_decide; [done|].
  by apply forEachIndex_quiet.
Qed.

Lemma clientConnect_quiet m connection id data now rnds :
  quietQueue (CommandQue (getClientDatabase m id)) →
  clientConnectThrows m connection id data now rnds = false.
Proof.
  intros Hq. rewrite clientConnectThrows_unfold. apply replayQueue_quiet.
  set (m1 := Manager _ _ _ _ _ _).
  assert (getClientDatabase (_updateOrCreateClient m1 id data now) id
          = getClientDatabase m id) as ->; [|done].
  unfold getClientDatabase.
  by destruct (updateOrCreate_fields m1 id data now) as (_ & _ & _ & ->).
Qed.

(** The poll timer on connect. A connect whose replay raises no TypeError
    leaves the agent with a timer for the stored frequency when that is
    positive, and with none otherwise; the period is the frequency in
    milliseconds as [setInterval] takes it, which is one millisecond above
    2147483 seconds. A connect whose replay raises a TypeError leaves the
    timers as they were. The replay raises none when no queued entry has a
    kind whose validation does. A connect keeps the stored frequency and
    the timers of the other agents, so a frequency set with
    [setGpsPollSpeed] survives a disconnect and the next connect starts the
    timer for it. *)
Theorem connect_starts_timer (m : ClientManager) (connection : nat) (id : string)
    (data : obj) (now : Z) (rnds : nat → Z) :
  (clientConnectThrows m connection id data now rnds = false →
     gpsPollers (clientConnect m connection id data now rnds) !! id
     = (if bool_decide (0 < updateFrequency (GPSSettings (getClientDatabase m id)))
        then Some (setInterval (updateFrequency (GPSSettings (getClientDatabase m id)) * 1000))
        else None))
  ∧ (clientConnectThrows m connection id data now rnds = true →
       gpsPollers (clientConnect m connection id data now rnds) = gpsPollers m)
  ∧ (quietQueue (CommandQue (getClientDatabase m id)) →
       clientConnectThrows m connection id data now rnds = false)
  ∧ (∀ id', GPSSettings (getClientDatabase (clientConnect m connection id data now rnds) id')
            = GPSSettings (getClientDatabase m id'))
  ∧ (∀ id', id ≠ id' →
       gpsPollers (clientConnect m connection id data now rnds) !! id'
       = gpsPollers m !! id')
  ∧ (∀ seconds now', 30 ≤ seconds →
       quietQueue (CommandQue (getClientDatabase m id)) →
       gpsPollers
         (clientConnect (clientDisconnect (setGpsPollSpeed m id seconds).1 id now')
            connection id data now rnds) !! id
       = Some (if bool_decide (seconds ≤ 2147483) then seconds * 1000 else 1)).
Proof.
  assert (∀ m0, clientConnectThrows m0 connection id data now rnds = false →
            gpsPollers (clientConnect m0 connection id data now rnds) !! id
            = (if bool_decide (0 < updateFrequency (GPSSettings (getClientDatabase m0 id)))
               then Some (setInterval
                            (updateFrequency (GPSSettings (getClientDatabase m0 id)) * 1000))
               else None)) as Hself.
  { intros m0 Hthrew.
    pose proof (clientConnect_gpsSettings m0 connection id data now rnds id) as Hg.
    rewrite clientConnectThrows_unfold in Hthrew.
    rewrite clientConnect_unfold in *. rewrite Hthrew in *.
    unfold gpsPollUnless in *. rewrite getClientDatabase_gpsPoll in Hg.
    by rewrite gpsPoll_self, Hg. }
  assert (∀ m0, gpsPollers
                  (_processCommandQueue
                     (_updateOrCreateClient
                        (Manager (<[id := connection]> (clientConnections m0)) (gpsPollers m0)
                           (<[id := bool_decide (is_Some (ignoreDisconnects m0 !! id))]>
                              (ignoreDisconnects m0))
                           (clients m0) (clientData m0) (orders m0))
                        id data now) id rnds)
                = gpsPollers m0) as Hpollers.
  { intros m0. set (m1 := Manager _ _ _ _ _ _).
    set (m2 := _updateOrCreateClient m1 id data now).
    destruct (processCommandQueue_sessions m2 id rnds) as (_ & _ & _ & ->).
    unfold m2. by destruct (updateOrCreate_fields m1 id data now) as (_ & _ & -> & _). }
  split_and!.
  - apply Hself.
  - intros Hthrew. rewrite clientConnectThrows_unfold in Hthrew.
    rewrite clientConnect_unfold, Hthrew. unfold gpsPollUnless. apply Hpollers.
  - apply clientConnect_quiet.
  - intros id'. apply clientConnect_gpsSettings.
  - intros id' Hne. rewrite clientConnect_unfold.
    assert (∀ threw m0, gpsPollers (gpsPollUnless threw m0 id) !! id'
                        = gpsPollers m0 !! id') as ->
      by (intros [] m0; [done|by apply gpsPoll_other]).
    by rewrite Hpollers.
  - intros seconds now' H30 Hquiet.
    assert (setGpsPollSpeed m id seconds
            = (gpsPoll (writeDoc m id
                          (withGPSSettings (GpsSettings seconds) (getClientDatabase m id))) id,
               None)) as Hset.
    { unfold setGpsPollSpeed. by rewrite (bool_decide_false (seconds < 30)) by lia. }
    rewrite Hset. simpl.
    set (m1 := gpsPoll _ id).
    assert (getClientDatabase (clientDisconnect m1 id now') id
            = withGPSSettings (GpsSettings seconds) (getClientDatabase m id)) as Hdb.
    { unfold getClientDatabase at 1. rewrite clientDisconnect_clientData.
      fold (getClientDatabase m1 id). unfold m1.
      by rewrite getClientDatabase_gpsPoll, getClientDatabase_writeDoc. }
    rewrite Hself.
    + rewrite Hdb. simpl. rewrite bool_decide_true by lia. f_equal.
      case_bool_decide.
      * by rewrite setInterval_within by lia.
      * by rewrite setInterval_above by lia.
    + apply clientConnect_quiet. rewrite Hdb. by destruct (getClientDatabase m id).
Qed.

Lemma connect_starts_timer_witness :
  gpsPollers
    (clientConnect (clientDisconnect (setGpsPollSpeed newManager "A1" 60).1 "A1" 20)
       1 "A1" ∅ 30 (fun _ => 0)) !! "A1"
  = Some 60000
  ∧ gpsPollers (clientConnect newManager 1 "A1" ∅ 30 (fun _ => 0)) !! "A1" = None.
Proof.
  split.
  - destruct (connect_starts_timer newManager 1 "A1" ∅ 30 (fun _ => 0))
      as (_ & _ & _ & _ & _ & H).
    rewrite (H 60 20); [reflexivity|lia|]. vm_compute. constructor.
  - destruct (connect_starts_timer newManager 1 "A1" ∅ 30 (fun _ => 0)) as (H & _).
    rewrite H; vm_compute; reflexivity.
Defined.

(** ** The logs only grow *)

Lemma pushIfNew_prefix h record db : db `prefix_of` pushIfNew h record db.
Proof.
  unfold pushIfNew. destruct (list_find _ db); [done|]. by apply prefix_app_r.
Qed.

Lemma pushIfNew_elem h record db e :
  e ∈ pushIfNew h record db → e ∈ db ∨ e = <["hash" := JStr h]> record.
Proof.
  unfold pushIfNew. destruct (list_find _ db); [by left|].
  intros [?| ->%list_elem_of_singleton]%elem_of_app; [by left|by right].
Qed.

Lemma pushIfNew_length h record db :
  (length (pushIfNew h record db) ≤ S (length db))%nat.
Proof.
  unfold pushIfNew. destruct (list_find _ db); [lia|].
  rewrite length_app. simpl. lia.
Qed.

Lemma pushEach_grows key l db :
  db `prefix_of` pushEach key l db
  ∧ (length (pushEach key l db) ≤ length db + length l)%nat
  ∧ ∀ e, e ∈ pushEach key l db →
         e ∈ db ∨ ∃ r, r ∈ l ∧ e = <["hash" := JStr (key r)]> r.
Proof.
  revert db. induction l as [|r l IH]; intros db.
  { simpl. split_and!; [done|lia|by left]. }
  destruct (IH (pushIfNew (key r) r db)) as (Hpre & Hlen & Helem).
  change (pushEach key (r :: l) db) with (pushEach key l (pushIfNew (key r) r db)).
  split_and!.
  - etrans; [apply pushIfNew_prefix|exact Hpre].
  - pose proof (pushIfNew_length (key r) r db). simpl. lia.
  - intros e [[Hin| ->]%pushIfNew_elem|(r' & Hr' & ->)]%Helem.
    + by left.
    + right. exists r. split; [apply list_elem_of_here|done].
    + right. exists r'. split; [by apply list_elem_of_further|done].
Qed.

Section LogProperties.

Variable md5 : string → string.
Variable numberText : Z → string.
Variable sumText : Z → Z → string.

Lemma contactsEach_grows l db :
  db `prefix_of` contactsEach md5 numberText sumText l db
  ∧ (length (contactsEach md5 numberText sumText l db) ≤ length db + length l)%nat
  ∧ ∀ e, e ∈ contactsEach md5 numberText sumText l db →
         e ∈ db
         ∨ ∃ r c, r ∈ l ∧ normalizeContact r = Some c
                  ∧ e = <["hash" := JStr (contactKey md5 numberText sumText c)]> c.
Proof.
  revert db. induction l as [|r l IH]; intros db.
  { simpl. split_and!; [done|lia|by left]. }
  simpl. destruct (normalizeContact r) as [c|] eqn:Hc.
  - destruct (IH (pushIfNew (contactKey md5 numberText sumText c) c db)) as (Hpre & Hlen & Helem).
    split_and!.
    + etrans; [apply pushIfNew_prefix|exact Hpre].
    + pose proof (pushIfNew_length (contactKey md5 numberText sumText c) c db). lia.
    + intros e [[Hin| ->]%pushIfNew_elem|(r' & c' & Hr' & Hc' & ->)]%Helem.
      * by left.
      * right. exists r, c. split_and!; [apply list_elem_of_here|done..].
      * right. exists r', c'. split_and!; [by apply list_elem_of_further|done..].
  - split_and!; [done|lia|by left].
Qed.

(** The four log-append listeners never remove or change a stored record:
    the former log is a prefix of the new one, which has at most as many
    more records as the batch has, each of them a record of the batch
    tagged with its own key (for a contact, the contact with its number
    stripped of spaces). *)
Theorem logs_append_only (d : clientDoc) :
  (∀ batch,
     CallData d `prefix_of` CallData (callHandler md5 numberText sumText batch d)
     ∧ (length (CallData (callHandler md5 numberText sumText batch d))
        ≤ length (CallData d) + length (default [] batch))%nat
     ∧ ∀ e, e ∈ CallData (callHandler md5 numberText sumText batch d) →
            e ∈ CallData d
            ∨ ∃ call, call ∈ default [] batch
                      ∧ e = <["hash" := JStr (callKey md5 numberText sumText call)]> call)
  ∧ (∀ data,
       SMSData d `prefix_of` SMSData (smsHandler md5 numberText sumText data d)
       ∧ ∀ e, e ∈ SMSData (smsHandler md5 numberText sumText data d) →
              e ∈ SMSData d
              ∨ ∃ l sms, data = SmsObject (Some l) ∧ sms ∈ l
                         ∧ e = <["hash" := JStr (smsKey md5 numberText sumText sms)]> sms)
  ∧ (∀ data,
       notificationLog d `prefix_of` notificationLog (notificationHandler md5 numberText sumText data d)
       ∧ ∀ e, e ∈ notificationLog (notificationHandler md5 numberText sumText data d) →
              e ∈ notificationLog d
              ∨ e = <["hash" := JStr (notificationKey md5 numberText sumText data)]> data)
  ∧ (∀ batch,
       contacts d `prefix_of` contacts (contactsHandler md5 numberText sumText batch d)
       ∧ (length (contacts (contactsHandler md5 numberText sumText batch d))
          ≤ length (contacts d) + length (default [] batch))%nat
       ∧ ∀ e, e ∈ contacts (contactsHandler md5 numberText sumText batch d) →
              e ∈ contacts d
              ∨ ∃ r c, r ∈ default [] batch ∧ normalizeContact r = Some c
                       ∧ e = <["hash" := JStr (contactKey md5 numberText sumText c)]> c).
Proof.
  split_and!.
  - intros [[|r l]|]; simpl; try (split_and!; [done|lia|by left]).
    apply (pushEach_grows (callKey md5 numberText sumText) (r :: l)).
  - intros [[l|]|b|]; simpl; try (split; [done|by left]).
    destruct (pushEach_grows (smsKey md5 numberText sumText) l (SMSData d)) as (Hpre & _ & Helem).
    split; [done|]. intros e [Hin|(sms & Hsms & ->)]%Helem; [by left|].
    right. exists l, sms. done.
  - intros data. simpl. split; [apply pushIfNew_prefix|apply pushIfNew_elem].
  - intros [[|r l]|]; simpl contacts; simpl default;
      try (split_and!; [done|simpl; lia|by left]).
    apply (contactsEach_grows (r :: l)).
Qed.

End LogProperties.

(** ** The wifi log over many ingestions *)

Lemma filter_one {A} (P : A → Prop) `{!∀ x, Decision (P x)} (l : list A) x :
  x ∈ l → P x → (1 ≤ length (filter P l))%nat.
Proof.
  intros Hx HP. assert (x ∈ filter P l) as Hin by (by apply list_elem_of_filter).
  destruct (filter P l); [by apply elem_of_nil in Hin|simpl; lia].
Qed.

Lemma filter_two_lt {A} (P : A → Prop) `{!∀ x, Decision (P x)} (l : list A) i j x y :
  (i < j)%nat → l !! i = Some x → l !! j = Some y → P x → P y →
  (2 ≤ length (filter P l))%nat.
Proof.
  intros Hij Hi Hj Hx Hy.
  rewrite <- (take_drop_middle l j y Hj), filter_app, length_app, filter_cons_True by done.
  assert (x ∈ take j l) as Hin.
  { apply list_elem_of_lookup. exists i. by rewrite lookup_take_lt. }
  pose proof (filter_one P (take j l) x Hin Hx). simpl. lia.
Qed.

Lemma filter_two {A} (P : A → Prop) `{!∀ x, Decision (P x)} (l : list A) i j x y :
  i ≠ j → l !! i = Some x → l !! j = Some y → P x → P y →
  (2 ≤ length (filter P l))%nat.
Proof.
  intros Hij Hi Hj Hx Hy. destruct (decide (i < j)%nat).
  - by eapply (filter_two_lt P l i j).
  - eapply (filter_two_lt P l j i); eauto. lia.
Qed.

Lemma stamp_lacks_pair now wifi : ¬ hasPair wifi → ¬ sameNetwork wifi (stamp now wifi).
Proof.
  intros Hn [Hs Hb]. apply Hn. unfold matchesProp, stamp in *.
  rewrite !lookup_insert_ne in Hs, Hb by done.
  split; [by rewrite Hs|by rewrite Hb].
Qed.

Lemma wifiHandler_appends now wifi d :
  Forall (fun e => ¬ sameNetwork wifi e) (wifiLog d) →
  wifiLog (wifiHandler (Some [wifi]) now d) = wifiLog d ++ [stamp now wifi].
Proof.
  intros Hall. rewrite wifiHandler_log. simpl. unfold wifiEach. simpl.
  destruct (list_find (sameNetwork wifi) (wifiLog d)) as [[i e]|] eqn:Hf; [|done].
  apply list_find_Some in Hf as (Hi & He & _). rewrite Forall_forall in Hall.
  destruct (Hall e); [|done]. apply list_elem_of_lookup. eauto.
Qed.

(** However many lists are ingested, at whatever times, no two entries of
    the log that have both an SSID and a BSSID have the same pair. A
    network that lacks one of the two is not covered: the entry pushed for
    it is never found again, so [n] scans of it leave [n] entries. *)
Theorem wifi_pairs_unique (messages : list (option (list obj) * Z)) :
  (∀ i j e e',
     wifiLog (fold_left (fun d message => wifiHandler message.1 message.2 d)
                messages emptyDoc) !! i = Some e →
     wifiLog (fold_left (fun d message => wifiHandler message.1 message.2 d)
                messages emptyDoc) !! j = Some e' →
     hasPair e → hasPair e' →
     jsget e "SSID" = jsget e' "SSID" → jsget e "BSSID" = jsget e' "BSSID" →
     i = j)
  ∧ (∀ wifi now n, ¬ hasPair wifi →
       wifiLog (Nat.iter n (wifiHandler (Some [wifi]) now) emptyDoc)
       = replicate n (stamp now wifi)).
Proof.
  split.
  - intros i j e e' Hi Hj He He' Hs Hb.
    destruct (decide (i = j)) as [|Hne]; [done|]. exfalso.
    assert (∀ d, (networkCount e (wifiLog d) ≤ 1)%nat →
              (networkCount e
                 (wifiLog (fold_left (fun d message => wifiHandler message.1 message.2 d)
                             messages d))
               ≤ 1)%nat) as Hgen.
    { clear. induction messages as [|[batch now] messages IH]; intros d Hd; [done|].
      simpl. apply IH. destruct batch as [[|w l]|]; [done| |done].
      rewrite wifiHandler_log.
      by apply (wifiLoop_count_le now e (w :: l) (wifiLog d, [])). }
    specialize (Hgen emptyDoc). unfold networkCount in Hgen.
    pose proof (filter_two (sameNetwork e) _ i j e e' Hne Hi Hj) as Htwo.
    assert (sameNetwork e e) as Hself by (by apply sameNetwork_self).
    assert (sameNetwork e e') as Hother.
    { destruct He' as [[s Hs'] [b Hb']]. unfold sameNetwork, matchesProp.
      rewrite Hs, Hb. unfold jsget. by rewrite Hs', Hb'. }
    specialize (Htwo Hself Hother). simpl in Hgen. lia.
  - intros wifi now n Hn.
    assert (wifiLog (Nat.iter n (wifiHandler (Some [wifi]) now) emptyDoc)
            = replicate n (stamp now wifi)
            ∧ Forall (fun e => ¬ sameNetwork wifi e)
                (wifiLog (Nat.iter n (wifiHandler (Some [wifi]) now) emptyDoc)))
      as [H _]; [|done].
    induction n as [|n [IH Hall]]; [by split|].
    rewrite Nat.iter_succ, wifiHandler_appends by done. rewrite IH. split.
    + clear. induction n as [|n IHn]; [done|]. simpl. by rewrite IHn.
    + apply Forall_app. split; [by rewrite <- IH|].
      apply Forall_singleton. by apply stamp_lacks_pair.
Qed.

Lemma wifi_pairs_unique_witness :
  wifiLog (Nat.iter 2 (wifiHandler (Some [{["BSSID" := JStr "aa:01"]}]) 100) emptyDoc)
  = replicate 2 (stamp 100 {["BSSID" := JStr "aa:01"]}).
Proof.
  apply (wifi_pairs_unique []). intros [[s Hs] _]. vm_compute in Hs. discriminate Hs.
Defined.

(** ** Snapshots *)

(** The file listing shows the last non-empty list that arrived: a
    message without a list or with an empty one leaves it as it is. *)
Theorem file_listing_last_nonempty (d : clientDoc) (before after : list (option (list obj)))
    (x : obj) (l : list obj) :
  Forall (fun message => message = None ∨ message = Some []) after →
  currentFolder
    (fold_left (fun d message => _handleFileList message d)
       (before ++ Some (x :: l) :: after) d)
  = x :: l.
Proof.
  intros Hafter. rewrite fold_left_app. simpl fold_left.
  set (d1 := fold_left _ before d).
  assert (∀ d0, fold_left (fun d message => _handleFileList message d) after d0 = d0)
    as ->.
  { induction Hafter as [|message after [-> | ->] _ IH]; intros d0; [done|..];
      simpl; apply IH. }
  apply handleFileList_replaces.
Qed.

Lemma file_listing_last_nonempty_witness :
  currentFolder
    (fold_left (fun d message => _handleFileList message d)
       ([Some [{["name" := JStr "a"]}; {["name" := JStr "b"]}]]
        ++ Some [{["name" := JStr "c"]}] :: [Some []; None])
       emptyDoc)
  = [{["name" := JStr "c"]}].
Proof.
  apply (file_listing_last_nonempty emptyDoc
           [Some [{["name" := JStr "a"]}; {["name" := JStr "b"]}]] [Some []; None]).
  repeat constructor; tauto.
Defined.

(** The app list is laid over the stored one: the incoming list is always
    the beginning of the snapshot, the snapshot never gets shorter, and it
    is the incoming list alone exactly when that is not shorter than what
    was stored. A message without a list changes nothing. *)
Theorem apps_overlay (d : clientDoc) (l : list obj) :
  l `prefix_of` apps (appsHandler (Some l) d)
  ∧ length (apps (appsHandler (Some l) d)) = (length l `max` length (apps d))%nat
  ∧ (apps (appsHandler (Some l) d) = l ↔ (length (apps d) ≤ length l)%nat)
  ∧ appsHandler None d = d.
Proof.
  rewrite appsHandler_overlays. split_and!.
  - by apply prefix_app_r.
  - rewrite length_app, length_drop. lia.
  - split.
    + intros Heq. apply (f_equal length) in Heq.
      rewrite length_app, length_drop in Heq. lia.
    + intros Hle. by rewrite drop_ge, app_nil_r.
  - done.
Qed.

(** ** File names and addresses *)

Lemma append_cons a (s t : string) : String a s +:+ t = String a (s +:+ t).
Proof. done. Qed.

Lemma length_append_string (s t : string) :
  String.length (s +:+ t) = (String.length s + String.length t)%nat.
Proof. induction s as [|a s IH]; simpl; [done|]. by rewrite IH. Qed.





Example client_ip_of_mapped_address : extractClientIP "::ffff:10.0.0.7" = "10.0.0.7".
Proof. reflexivity. Qed.

(** ** The SMS page *)

Lemma substringFrom_append (p t : string) : substringFrom (String.length p) (p +:+ t) = t.
Proof.
  induction p as [|a p IH]; [by destruct t|]. rewrite append_cons. exact IH.
Qed.

Lemma lastSix_append (p t : string) : String.length t = 6%nat → lastSix (p +:+ t) = t.
Proof.
  intros Ht. unfold lastSix. rewrite length_append_string, Ht.
  replace (String.length p + 6 - 6)%nat with (String.length p) by lia.
  apply substringFrom_append.
Qed.

Lemma lastSix_short (s : string) : (String.length s ≤ 6)%nat → lastSix s = s.
Proof.
  intros Hs. unfold lastSix.
  replace (String.length s - 6)%nat with 0%nat by lia. by destruct s.
Qed.

Lemma smsMatching_found f l found :
  smsMatching f l = Some found →
  found `sublist_of` l
  ∧ ∀ sms, sms ∈ found ↔
           sms ∈ l ∧ ∃ a, jsget sms "address" = JStr a ∧ lastSix a = lastSix f.
Proof.
  revert found. induction l as [|x l IH]; intros found; simpl.
  { intros [= <-]. split; [done|]. intros sms. split; [by intros ?%elem_of_nil|].
    by intros [?%elem_of_nil _]. }
  destruct (jsget x "address") as [| | | | |a] eqn:Ha; try done.
  destruct (smsMatching f l) as [found'|]; [|done].
  destruct (IH found' eq_refl) as [Hsub Hmem]. intros [= <-].
  case_bool_decide as Hsix.
  - split; [by apply sublist_skip|]. intros sms. rewrite !elem_of_cons, Hmem.
    split.
    + intros [->|[Hin Hex]]; [|tauto]. split; [by left|eauto].
    + intros [[->|Hin] Hex]; [by left|by right].
  - split; [by apply sublist_cons|]. intros sms. rewrite elem_of_cons, Hmem.
    split; [tauto|]. intros [[->|Hin] Hex]; [|done].
    destruct Hex as (a' & Ha' & Hsix'). congruence.
Qed.

Lemma smsMatching_throws f l :
  smsMatching f l = None ↔ ∃ sms, sms ∈ l ∧ ∀ a, jsget sms "address" ≠ JStr a.
Proof.
  induction l as [|x l IH]; simpl.
  { split; [done|]. by intros (sms & ?%elem_of_nil & _). }
  destruct (jsget x "address") as [| | | | |a] eqn:Ha;
    try (split; [intros _; exists x; split; [apply list_elem_of_here|congruence]|done]).
  destruct (smsMatching f l) as [found|].
  - split; [done|]. intros (sms & [->|Hin]%elem_of_cons & Hsms).
    + by destruct (Hsms a).
    + exfalso. destruct IH as [_ IH]. discriminate IH. eauto.
  - split; [|done]. intros _. destruct IH as [IH _].
    destruct (IH eq_refl) as (sms & Hin & Hsms). exists sms.
    split; [by apply list_elem_of_further|done].
Qed.

(** The SMS page with a filter. Without a filter, or with the empty one,
    the whole log is returned. With a filter the page holds, in the order
    of the log, exactly the messages whose address has the same last six
    characters as the filter, so two ways of writing a number that agree
    on their last six characters match; and the page cannot be built (the
    comparison throws) exactly when some stored message has an address that
    is not a string. *)
Theorem sms_page_filter (log : list obj) :
  _getSmsData log None = Some log
  ∧ _getSmsData log (Some EmptyString) = Some log
  ∧ (∀ f found, f ≠ EmptyString → _getSmsData log (Some f) = Some found →
       found `sublist_of` log
       ∧ ∀ sms, sms ∈ found ↔
                sms ∈ log ∧ ∃ a, jsget sms "address" = JStr a ∧ lastSix a = lastSix f)
  ∧ (∀ f, f ≠ EmptyString →
       _getSmsData log (Some f) = None
       ↔ ∃ sms, sms ∈ log ∧ ∀ a, jsget sms "address" ≠ JStr a)
  ∧ (∀ p q t, String.length t = 6%nat → lastSix (p +:+ t) = lastSix (q +:+ t))
  ∧ (∀ s, (String.length s ≤ 6)%nat → lastSix s = s).
Proof.
  split_and!; [done|done| | | |].
  - intros [|a f] found Hf; [done|]. apply smsMatching_found.
  - intros [|a f] Hf; [done|]. apply smsMatching_throws.
  - intros p q t Ht. by rewrite !lastSix_append.
  - apply lastSix_short.
Qed.

Lemma sms_page_filter_witness :
  _getSmsData
    [<["address" := JStr "+491701234567"]> {["body" := JStr "hi"]};
     <["address" := JStr "+15550001111"]> {["body" := JStr "yo"]}]
    (Some "01701234567")
  = Some [<["address" := JStr "+491701234567"]> {["body" := JStr "hi"]}]
  ∧ lastSix ("+49170" +:+ "234567") = lastSix ("0170" +:+ "234567").
Proof.
  split; [vm_compute; reflexivity|].
  apply (sms_page_filter []). reflexivity.
Defined.

(** ** File keys *)

(** With a digest of at least fourteen characters (the hexadecimal MD5 has
    thirty-two), the file key is its first fourteen characters in groups
    of five, four and five, joined by dashes: sixteen characters. *)
Theorem file_key_shape (md5 : string → string) (seed : string) :
  (14 ≤ String.length (md5 seed))%nat →
  ∃ a b c tail,
    md5 seed = a +:+ b +:+ c +:+ tail
    ∧ String.length a = 5%nat ∧ String.length b = 4%nat ∧ String.length c = 5%nat
    ∧ _generateFileKey md5 seed = a +:+ "-" +:+ b +:+ "-" +:+ c
    ∧ String.length (_generateFileKey md5 seed) = 16%nat.
Proof.
  unfold _generateFileKey. generalize (md5 seed). intros hash Hlen.
  do 14 (destruct hash as [|? hash]; [simpl in Hlen; lia|]).
  eexists (String _ (String _ (String _ (String _ (String _ EmptyString))))),
    (String _ (String _ (String _ (String _ EmptyString)))),
    (String _ (String _ (String _ (String _ (String _ EmptyString))))), hash.
  split_and!; reflexivity.
Qed.

Lemma file_key_shape_witness :
  _generateFileKey (fun _ => "0123456789abcdef0123456789abcdef") "1700000000000.42"
  = "01234-5678-9abcd".
Proof.
  destruct (file_key_shape (fun _ => "0123456789abcdef0123456789abcdef")
              "1700000000000.42") as (a & b & c & tail & _ & _ & _ & _ & _ & _).
  - vm_compute. lia.
  - reflexivity.
Defined.

(** ** The location listener *)

Section LocationProperties.

Variable number : Type.
Variable zero : number.
Variable falsyNumber : number → bool.

Lemma orElse_keptOrDefault (v d : anyValue number) :
  keptOrDefault number falsyNumber v d (orElse number falsyNumber v d).
Proof.
  unfold keptOrDefault, orElse. destruct (truthy number falsyNumber v); [by left|by right].
Qed.

(** A location message is dropped when it is not an object or has no
    latitude or no longitude. Otherwise exactly one fix is put at the end
    of the log, stamped with the time of arrival, whatever the log holds
    (the same fix twice is stored twice); each of its numbers is the
    incoming value when that is truthy and zero otherwise, and [enabled] is
    the incoming value when truthy and [false] otherwise, so a coordinate
    that came as [null] is stored as zero. *)
Theorem location_fixes (now : Z) (log : list (gpsFix number)) :
  locationHandler number zero falsyNumber None now log = log
  ∧ (∀ data,
       defined number (field number data "latitude") = false
       ∨ defined number (field number data "longitude") = false →
       locationHandler number zero falsyNumber (Some data) now log = log)
  ∧ (∀ data,
       defined number (field number data "latitude") = true →
       defined number (field number data "longitude") = true →
       ∃ stored,
         locationHandler number zero falsyNumber (Some data) now log = log ++ [stored]
         ∧ time number stored = now
         ∧ keptOrDefault number falsyNumber (field number data "enabled")
             (VBool number false) (enabled number stored)
         ∧ keptOrDefault number falsyNumber (field number data "latitude")
             (VNum number zero) (latitude number stored)
         ∧ keptOrDefault number falsyNumber (field number data "longitude")
             (VNum number zero) (longitude number stored)
         ∧ keptOrDefault number falsyNumber (field number data "altitude")
             (VNum number zero) (altitude number stored)
         ∧ keptOrDefault number falsyNumber (field number data "accuracy")
             (VNum number zero) (accuracy number stored)
         ∧ keptOrDefault number falsyNumber (field number data "speed")
             (VNum number zero) (speed number stored)
         ∧ ∀ now',
             length
               (locationHandler number zero falsyNumber (Some data) now'
                  (locationHandler number zero falsyNumber (Some data) now log))
             = (length log + 2)%nat).
Proof.
  split_and!.
  - done.
  - intros data [H|H]; simpl; rewrite H; [done|]. by rewrite andb_false_r.
  - intros data Hlat Hlon. simpl. rewrite Hlat, Hlon. simpl.
    eexists. split; [reflexivity|]. simpl.
    split_and!; try apply orElse_keptOrDefault; [done|].
    intros now'. rewrite !length_app. simpl. lia.
Qed.

End LocationProperties.

Lemma location_fixes_witness :
  ∃ stored,
    locationHandler Z 0 (Z.eqb 0)
      (Some (<["latitude" := VNum Z 52]> {["longitude" := VNull Z]})) 10 []
    = [stored]
    ∧ longitude Z stored = VNum Z 0.
Proof.
  destruct (location_fixes Z 0 (Z.eqb 0) 10 []) as (_ & _ & H).
  destruct (H (<["latitude" := VNum Z 52]> {["longitude" := VNull Z]}))
    as (stored & Heq & _ & _ & _ & Hlon & _); [reflexivity..|].
  exists stored. split; [exact Heq|].
  destruct Hlon as [[Ht _]|[_ Hd]]; [vm_compute in Ht; discriminate Ht|exact Hd].
Defined.
